(** * go-decorator: the decorator pipeline of [decorator_pattern.go]

    A shallow embedding of the Client/Decorator pipeline.  A Go [Client]
    is a closure over shared mutable objects (the request behind the
    [*http.Request] pointer, the logger, the metrics, the cells captured by
    the directors); here it is a function on an explicit [World] that holds
    those objects, so that aliasing is kept: every layer of a pipeline sees
    the mutations of the layers that ran before it. *)

From Stdlib Require Import ZArith List String Ascii Bool Lia.
From stdpp Require Import base option list gmap strings.

Open Scope Z_scope.

(** ** Machine integers *)

Module GoInt.

(** Go's [int] and [time.Duration] (an [int64]) on a 64-bit target. *)
Definition min_int : Z := - 2 ^ 63.
Definition max_int : Z := 2 ^ 63 - 1.

(** Signed 64-bit wrap-around, the result of [+] and [*] on [int64]. *)
Definition wrap64 (z : Z) : Z := (z + 2 ^ 63) mod 2 ^ 64 - 2 ^ 63.

(** Unsigned 64-bit wrap-around, the result of arithmetic on [uint64]. *)
Definition wrapU64 (z : Z) : Z := z mod 2 ^ 64.

(** [time.Time.Sub] saturates at the ends of the [Duration] range. *)
Definition sat64 (z : Z) : Z := Z.max min_int (Z.min max_int z).

End GoInt.
Export GoInt.

(** ** The part of [fmt] that [Logging] uses *)

Module Fmt.

(** The operands [Logging] hands to [Printf]: a string, a value with a
    [String] method, and a func value, of which [fmt] only knows the type
    and the code pointer. *)
Inductive GoValue : Type :=
| VString (s : string)
| VStringer (s : string)
| VFunc (ty : string) (pc : Z).

Definition hex_digit (d : Z) : ascii :=
  nth (Z.to_nat d)
      (list_ascii_of_string "0123456789abcdef") "?"%char.

(** Lower-case hexadecimal digits of [z], most significant first. *)
Fixpoint hex_digits (fuel : nat) (z : Z) (acc : string) : string :=
  match fuel with
  | O => acc
  | S fuel' =>
      let acc' := String (hex_digit (z mod 16)) acc in
      if z / 16 =? 0 then acc' else hex_digits fuel' (z / 16) acc'
  end.

(** [fmt0x64] without the sharp flag: a [uintptr] as 0x followed by hex. *)
Definition fmt0x64 (u : Z) : string :=
  ("0x" ++ hex_digits 16 (wrapU64 u) "")%string.

(** The verb [%v] on a pointer-like value ([fmtPointer]). *)
Definition fmt_pointer_v (u : Z) : string :=
  if u =? 0 then "<nil>"%string else fmt0x64 u.

(** The verb [%s] on one operand.  A string prints as it is, a Stringer
    prints the result of its [String] method, and a func value is a bad
    operand for [%s]: [badVerb] prints the verb, the type and the [%v]
    rendering, which is the code pointer. *)
Definition fmt_s (v : GoValue) : string :=
  match v with
  | VString s => s
  | VStringer s => s
  | VFunc ty pc => ("%!s(" ++ ty ++ "=" ++ fmt_pointer_v pc ++ ")")%string
  end.

(** [Sprintf] for formats whose only verb is [%s]; an operand that is
    missing prints as [%!s(MISSING)]. *)
Fixpoint Sprintf (format : string) (args : list GoValue) : string :=
  match format with
  | EmptyString => EmptyString
  | String "%"%char (String "s"%char rest) =>
      match args with
      | a :: args' => (fmt_s a ++ Sprintf rest args')%string
      | [] => ("%!s(MISSING)" ++ Sprintf rest [])%string
      end
  | String c rest => String c (Sprintf rest args)
  end.

End Fmt.
Export Fmt.

(** ** Requests *)

Module Http.

(** A [url.URL] with a scheme, a host and a path: the opaque part, the user
    information, the raw path, the query and the fragment are empty, and
    [OmitHost] and [ForceQuery] are not set. *)
Record URL : Type := mkURL {
  Scheme : string;
  Host : string;
  Path : string
}.

(** [http.Header] is a [map[string][]string]. *)
Abbreviation http_Header := (gmap string (list string)).

(** An [*http.Request] with a URL.  The header map can be nil ([None]):
    [http.NewRequest] builds a request with a map, a request literal has
    none. *)
Record Request : Type := mkRequest {
  Method : string;
  Url : URL;
  HdrRef : option http_Header
}.

(** The header map as it reads: a nil map reads as an empty one. *)
Definition Hdr (r : Request) : http_Header := default ∅ (HdrRef r).

Definition is_lower (c : ascii) : bool :=
  let n := nat_of_ascii c in (97 <=? n)%nat && (n <=? 122)%nat.
Definition is_upper (c : ascii) : bool :=
  let n := nat_of_ascii c in (65 <=? n)%nat && (n <=? 90)%nat.
Definition is_digit (c : ascii) : bool :=
  let n := nat_of_ascii c in (48 <=? n)%nat && (n <=? 57)%nat.

(** The two modes of [escape] that [String] uses on such a URL. *)
Inductive encoding : Type := encodePath | encodeHost.

Definition is_one_of (c : ascii) (cs : list ascii) : bool :=
  existsb (Ascii.eqb c) cs.

(** [shouldEscape] of [net/url]: letters and digits are never escaped;
    a host keeps the sub-delimiters, the colon, the brackets, the angle
    brackets and the quotation mark; the marks [-_.~] are kept; of the
    reserved characters a path escapes the question mark only and a host
    escapes those that are left; every other byte is escaped. *)
Definition shouldEscape (c : ascii) (mode : encoding) : bool :=
  if is_lower c || is_upper c || is_digit c then false
  else if match mode with
          | encodeHost =>
              is_one_of c (list_ascii_of_string "!$&'()*+,;=:[]<>"
                             ++ ["034"%char])
          | encodePath => false
          end then false
  else if is_one_of c (list_ascii_of_string "-_.~") then false
  else if is_one_of c (list_ascii_of_string "$&+,/:;=?@") then
    match mode with
    | encodePath => Ascii.eqb c "?"%char
    | encodeHost => true
    end
  else true.

Definition upperhex (n : nat) : ascii :=
  nth n (list_ascii_of_string "0123456789ABCDEF") "?"%char.

(** [escape]: a byte to escape becomes a percent sign and two upper-case
    hexadecimal digits. *)
Fixpoint escape (s : string) (mode : encoding) : string :=
  match s with
  | EmptyString => EmptyString
  | String c rest =>
      if shouldEscape c mode then
        String "%"%char
          (String (upperhex (nat_of_ascii c / 16))
             (String (upperhex (nat_of_ascii c mod 16)) (escape rest mode)))
      else String c (escape rest mode)
  end.

(** [EscapedPath] without a raw path. *)
Definition EscapedPath (u : URL) : string :=
  if String.eqb (Path u) "*" then "*"%string else escape (Path u) encodePath.

(** The part of [s] before its first slash, all of [s] when it has
    none. *)
Fixpoint first_segment (s : string) : string :=
  match s with
  | EmptyString => EmptyString
  | String c rest =>
      if Ascii.eqb c "/"%char then EmptyString
      else String c (first_segment rest)
  end.

Definition is_empty (s : string) : bool := String.eqb s EmptyString.

Definition starts_with_slash (s : string) : bool :=
  match s with
  | String c _ => Ascii.eqb c "/"%char
  | EmptyString => false
  end.

(** The [String] method of [url.URL] on such a URL: the scheme with its
    colon, two slashes when there is a scheme or a host and a host or a
    path follows, the escaped host, a slash before a path that has none
    when a host precedes it, a dot segment before a relative path whose
    first segment holds a colon, and the escaped path. *)
Definition URL_String (u : URL) : string :=
  let scheme :=
    if is_empty (Scheme u) then EmptyString else (Scheme u ++ ":")%string in
  let authority :=
    if negb (is_empty (Scheme u)) || negb (is_empty (Host u)) then
      ((if negb (is_empty (Host u)) || negb (is_empty (Path u))
        then "//" else "")
       ++ (if is_empty (Host u) then "" else escape (Host u) encodeHost))%string
    else EmptyString in
  let path := EscapedPath u in
  let slash :=
    if negb (is_empty path) && negb (starts_with_slash path)
       && negb (is_empty (Host u))
    then "/"%string else EmptyString in
  let buf := (scheme ++ authority ++ slash)%string in
  let dot :=
    if is_empty buf
       && existsb (Ascii.eqb ":"%char)
            (list_ascii_of_string (first_segment path))
    then "./"%string else EmptyString in
  (buf ++ dot ++ path)%string.

(** [validHeaderFieldByte]: the token characters of RFC 7230. *)
Definition validHeaderFieldByte (c : ascii) : bool :=
  is_lower c || is_upper c || is_digit c
  || existsb (Ascii.eqb c) (list_ascii_of_string "!#$%&'*+-.^_`|~").

Definition to_upper (c : ascii) : ascii :=
  if is_lower c then ascii_of_nat (nat_of_ascii c - 32) else c.
Definition to_lower (c : ascii) : ascii :=
  if is_upper c then ascii_of_nat (nat_of_ascii c + 32) else c.

(** The second loop of [canonicalMIMEHeaderKey]: the first letter and
    every letter after a hyphen in upper case, the others in lower
    case. *)
Fixpoint canon_loop (upper : bool) (s : string) : string :=
  match s with
  | EmptyString => EmptyString
  | String c rest =>
      let c' := if upper then to_upper c else to_lower c in
      String c' (canon_loop (Ascii.eqb c' "-"%char) rest)
  end.

(** [textproto.CanonicalMIMEHeaderKey]: a key with a byte that is not a
    token character is returned unchanged. *)
Definition CanonicalMIMEHeaderKey (s : string) : string :=
  if forallb validHeaderFieldByte (list_ascii_of_string s)
  then canon_loop true s else s.

(** [Header.Add]: [h[key] = append(h[key], value)] at the canonical
    key. *)
Definition Header_Add (name value : string) (h : http_Header) : http_Header :=
  let key := CanonicalMIMEHeaderKey name in
  <[key := default [] (h !! key) ++ [value]]> h.

(** [Header.Get]: the first value of the canonical key, or the empty
    string. *)
Definition Header_Get (name : string) (h : http_Header) : string :=
  match h !! CanonicalMIMEHeaderKey name with
  | Some (v :: _) => v
  | _ => EmptyString
  end.

(** The [UserAgent] method of [http.Request]. *)
Definition UserAgent (r : Request) : string :=
  Header_Get "User-Agent" (Hdr r).

End Http.
Export Http.

(** ** Collaborators *)

(** A [*log.Logger], known by the prefix it was built with. *)
Record Logger : Type := mkLogger { lg_prefix : string }.

(** Modelled from the spec: the [Counter] and [Histogram] collaborators,
    which are declared outside [decorator_pattern.go].  The spec gives them
    the contracts [Add(delta)] and [Observe(value)] and leaves their
    internals open, so a metric is its name and a call on it is recorded as
    an event. *)
Record Counter : Type := mkCounter { counter_name : string }.
Record Histogram : Type := mkHistogram { histogram_name : string }.

(** What a run leaves behind, in program order.  [EvMark] is the mark of a
    recording test double. *)
Inductive Event : Type :=
| EvLog (l : Logger) (record : string)
| EvObserve (h : Histogram) (v : Z)
| EvAdd (c : Counter) (delta : Z)
| EvSleep (d : Z)
| EvMark (tag : string).

(** An opaque [*http.Response] and an [error]; [nil] is [None]. *)
Record Response : Type := mkResponse { StatusCode : Z }.
Definition Error : Type := string.
Definition Result : Type := (option Response * option Error)%type.

(** A call returns or panics. *)
Inductive Outcome (A : Type) : Type :=
| Ret (a : A)
| Panic.
Arguments Ret {A} a.
Arguments Panic {A}.

Section Pipeline.

(** [math/rand] is outside the repository: the generator is a parameter,
    [NewSource seed] for [rand.New(rand.NewSource(seed))] and
    [Intn g n] for the draw and the generator after it. *)
Context {Rng : Type}.
Variable NewSource : Z -> Rng.
Variable Intn : Rng -> Z -> Z * Rng.

(** The code pointer of the method value [r.UserAgent], fixed by the
    compiled binary. *)
Variable UserAgent_fm : Z.

(** The objects a pipeline shares: the request behind the pointer [r],
    the events so far, the clock in nanoseconds, the [uint64] cells
    captured by [RoundRobin] closures and the generators captured by
    [Random] closures. *)
Record World : Type := mkWorld {
  w_req : Request;
  w_trace : list Event;
  w_clock : Z;
  w_cells : list Z;
  w_rngs : list Rng
}.

Definition set_req (f : Request -> Request) (w : World) : World :=
  mkWorld (f (w_req w)) (w_trace w) (w_clock w) (w_cells w) (w_rngs w).
Definition emit (e : Event) (w : World) : World :=
  mkWorld (w_req w) (w_trace w ++ [e]) (w_clock w) (w_cells w) (w_rngs w).
Definition set_clock (t : Z) (w : World) : World :=
  mkWorld (w_req w) (w_trace w) t (w_cells w) (w_rngs w).
Definition set_cells (cs : list Z) (w : World) : World :=
  mkWorld (w_req w) (w_trace w) (w_clock w) cs (w_rngs w).
Definition set_rngs (gs : list Rng) (w : World) : World :=
  mkWorld (w_req w) (w_trace w) (w_clock w) (w_cells w) gs.

(** [r.URL.Host = h] on the shared request. *)
Definition set_host (h : string) (r : Request) : Request :=
  mkRequest (Method r) (mkURL (Scheme (Url r)) h (Path (Url r))) (HdrRef r).

(** [r.Header.Add(name, value)] on a request that has a header map. *)
Definition add_header (name value : string) (r : Request) : Request :=
  mkRequest (Method r) (Url r) (Some (Header_Add name value (Hdr r))).

(** [time.Sleep d]: returns at once when [d <= 0]. *)
Definition Sleep (d : Z) (w : World) : World :=
  set_clock (w_clock w + Z.max 0 d) (emit (EvSleep d) w).

(** [time.Since(start).Nanoseconds()] read in world [w]. *)
Definition Since (start : Z) (w : World) : Z := sat64 (w_clock w - start).

Definition Observe (h : Histogram) (v : Z) : World -> World :=
  emit (EvObserve h v).
Definition Add (c : Counter) (delta : Z) : World -> World :=
  emit (EvAdd c delta).
Definition Printf (l : Logger) (format : string) (args : list GoValue)
  : World -> World :=
  emit (EvLog l (Sprintf format args)).

(** A [Client]: [Do] on the shared request.  The first argument bounds
    the iterations of the loops inside; [None] is a run that needs
    more. *)
Definition Client : Type := nat -> World -> option (Outcome Result * World).
Definition ClientFunc (f : Client) : Client := f.
Definition Do (c : Client) : Client := c.

Definition Decorator : Type := Client -> Client.

(** A [Director] returns nothing; it can panic on an index. *)
Definition Director : Type := World -> Outcome unit * World.

Definition Logging (l : Logger) : Decorator :=
  fun c => ClientFunc (fun fuel w =>
    let r := w_req w in
    let w1 := Printf l "%s: %s %s"
                [VFunc "func() string" UserAgent_fm;
                 VString (Method r);
                 VStringer (URL_String (Url r))] w in
    Do c fuel w1).

(** The deferred function runs when [c.Do] returns and when it
    panics; its argument [time.Now()] is evaluated at the [defer]. *)
Definition Instrumentation (requests : Counter) (latency : Histogram)
  : Decorator :=
  fun c => ClientFunc (fun fuel w =>
    let start := w_clock w in
    match Do c fuel w with
    | None => None
    | Some (o, w1) =>
        Some (o, Add requests 1 (Observe latency (Since start w1) w1))
    end).

(** The loop of [FaultTolerance] from counter [i] with the named results
    [(res, err)] as they stand. *)
Fixpoint FaultTolerance_loop (attempts backoff : Z) (c : Client)
    (fuel : nat) (i : Z) (cur : Result) (w : World) (n : nat)
  : option (Outcome Result * World) :=
  match n with
  | O => None
  | S n' =>
      if i <=? attempts then
        match Do c fuel w with
        | None => None
        | Some (Panic, w1) => Some (Panic, w1)
        | Some (Ret (res, None), w1) => Some (Ret (res, None), w1)
        | Some (Ret (res, Some e), w1) =>
            FaultTolerance_loop attempts backoff c fuel (wrap64 (i + 1))
              (res, Some e) (Sleep (wrap64 (backoff * i)) w1) n'
        end
      else Some (Ret cur, w)
  end.

Definition FaultTolerance (attempts backoff : Z) : Decorator :=
  fun c => ClientFunc (fun fuel w =>
    FaultTolerance_loop attempts backoff c fuel 0 (None, None) w fuel).

(** [r.Header.Add] writes to the map: on a nil map it panics, before the
    wrapped client is reached. *)
Definition Header (name value : string) : Decorator :=
  fun c => ClientFunc (fun fuel w =>
    match HdrRef (w_req w) with
    | None => Some (Panic, w)
    | Some _ => Do c fuel (set_req (add_header name value) w)
    end).

Definition Authorization (token : string) : Decorator :=
  Header "Authorization" token.

Definition LoadBalancing (dir : Director) : Decorator :=
  fun c => ClientFunc (fun fuel w =>
    match dir w with
    | (Ret _, w1) => Do c fuel w1
    | (Panic, w1) => Some (Panic, w1)
    end).

Definition len (backends : list string) : Z := Z.of_nat (length backends).

(** The closure [RoundRobin] returns, over the cell at [loc].
    [atomic.AddUint64] stores and returns the new value. *)
Definition RoundRobin_director (loc : nat) (backends : list string)
  : Director :=
  fun w =>
    if 0 <? len backends then
      match w_cells w !! loc with
      | Some v =>
          let v' := wrapU64 (v + 1) in
          let w1 := set_cells (<[loc := v']> (w_cells w)) w in
          match backends !! Z.to_nat (v' mod len backends) with
          | Some b => (Ret tt, set_req (set_host b) w1)
          | None => (Panic, w1)
          end
      | None => (Panic, w)
      end
    else (Ret tt, w).

(** [RoundRobin robin backends]: the parameter [robin] becomes a fresh
    cell that only the returned closure reaches. *)
Definition RoundRobin (robin : Z) (backends : list string) (w : World)
  : Director * World :=
  (RoundRobin_director (length (w_cells w)) backends,
   set_cells (w_cells w ++ [robin]) w).

(** The closure [Random] returns, over the generator at [loc]. *)
Definition Random_director (loc : nat) (backends : list string)
  : Director :=
  fun w =>
    if 0 <? len backends then
      match w_rngs w !! loc with
      | Some g =>
          let '(k, g') := Intn g (len backends) in
          let w1 := set_rngs (<[loc := g']> (w_rngs w)) w in
          if k <? 0 then (Panic, w1) else
          match backends !! Z.to_nat k with
          | Some b => (Ret tt, set_req (set_host b) w1)
          | None => (Panic, w1)
          end
      | None => (Panic, w)
      end
    else (Ret tt, w).

Definition Random (seed : Z) (backends : list string) (w : World)
  : Director * World :=
  (Random_director (length (w_rngs w)) backends,
   set_rngs (w_rngs w ++ [NewSource seed]) w).

(** [Decorate c ds]: the loop over [ds], first to last. *)
Definition Decorate (c : Client) (ds : list Decorator) : Client :=
  fold_left (fun decorated decorate => decorate decorated) ds c.

(** ** Test doubles

    The recording base and transforms of the spec's testable properties:
    they leave marks in the trace, so that the order and the number of
    invocations can be read off it. *)

(** A base that marks its invocation and returns [result]. *)
Definition Recorder (tag : string) (result : Result) : Client :=
  fun _ w => Some (Ret result, emit (EvMark tag) w).

(** A transform that marks before it delegates and after the delegated
    call has returned. *)
Definition Around (pre post : string) : Decorator :=
  fun c fuel w =>
    match c fuel (emit (EvMark pre) w) with
    | Some (Ret r, w1) => Some (Ret r, emit (EvMark post) w1)
    | other => other
    end.

Definition is_mark (tag : string) (e : Event) : bool :=
  match e with
  | EvMark t => String.eqb t tag
  | _ => false
  end.

(** The number of marks [tag] in the trace. *)
Definition calls (tag : string) (w : World) : Z :=
  Z.of_nat (length (filter (fun e => is_mark tag e = true) (w_trace w))).

(** A base that fails on its first [k] invocations and succeeds from
    then on; it counts its own marks. *)
Definition Flaky (tag : string) (k : Z) (resp : Response) : Client :=
  fun _ w =>
    let n := calls tag w in
    let w1 := emit (EvMark tag) w in
    if n <? k then Some (Ret (None, Some ("failure"%string : Error)), w1)
    else Some (Ret (Some resp, None), w1).

(** [c] fails on the invocations numbered [n0 + 1 .. n0 + k] and succeeds
    on the next, where [count] reads the number of invocations so far off
    the world. *)
Record fails_then_succeeds (c : Client) (count : World -> Z) (n0 k : Z)
  : Prop := {
  fts_sleep : forall d w, count (Sleep d w) = count w;
  fts_step : forall fuel w o w1,
    c fuel w = Some (o, w1) -> count w1 = count w + 1;
  fts_fail : forall fuel w, count w < n0 + k ->
    exists res e w1, c fuel w = Some (Ret (res, Some e), w1);
  fts_ok : forall fuel w, count w = n0 + k ->
    exists res w1, c fuel w = Some (Ret (res, None), w1)
}.

(** [c] leaves exactly one mark [tag] per invocation. *)
Definition marks_invocation (c : Client) (tag : string) : Prop :=
  forall fuel w o w1,
    c fuel w = Some (o, w1) -> w_trace w1 = w_trace w ++ [EvMark tag].

(** [m] failed attempts in a row, each followed by the sleep of the
    loop: from counter [i] in world [w] to world [w'], with the last
    result in [cur']. *)
Inductive failed_run (backoff : Z) (c : Client) (fuel : nat)
  : Z -> World -> Result -> nat -> World -> Result -> Prop :=
| failed_nil i w cur : failed_run backoff c fuel i w cur 0 w cur
| failed_cons i w cur res e w1 m w' cur' :
    c fuel w = Some (Ret (res, Some e), w1) ->
    failed_run backoff c fuel (i + 1)
      (Sleep (wrap64 (backoff * i)) w1) (res, Some e) m w' cur' ->
    failed_run backoff c fuel i w cur (S m) w' cur'.

(** The events of [m] failed attempts of a marking client from counter
    [i]: a mark, then the sleep of [backoff * j] for the counter [j] of
    the attempt. *)
Fixpoint schedule (tag : string) (backoff i : Z) (m : nat) : list Event :=
  match m with
  | O => []
  | S m' =>
      EvMark tag :: EvSleep (wrap64 (backoff * i))
        :: schedule tag backoff (i + 1) m'
  end.

(** The hosts a director selects in [n] invocations in a row. *)
Fixpoint hosts_selected (dir : Director) (n : nat) (w : World)
  : list string :=
  match n with
  | O => []
  | S n' =>
      let w1 := snd (dir w) in
      Host (Url (w_req w1)) :: hosts_selected dir n' w1
  end.

(** The decorators that hand the result of the wrapped client on. *)
Inductive pass_through : Decorator -> Prop :=
| pt_Logging l : pass_through (Logging l)
| pt_Instrumentation requests latency :
    pass_through (Instrumentation requests latency)
| pt_Header name value : pass_through (Header name value)
| pt_LoadBalancing dir : pass_through (LoadBalancing dir).

(** The decorators of a pipeline whose result comes from the wrapped
    client: the four that hand it on, and the retry loop when it makes
    at least one attempt. *)
Inductive hands_on : Decorator -> Prop :=
| ho_pass d : pass_through d -> hands_on d
| ho_FaultTolerance attempts backoff :
    0 <= attempts -> hands_on (FaultTolerance attempts backoff).

(** ** Observations on a run *)

(** [c] fails on every invocation. *)
Definition always_fails (c : Client) : Prop :=
  forall fuel w, exists res e w1, c fuel w = Some (Ret (res, Some e), w1).

(** A base that marks the host it is sent to and returns [result]. *)
Definition HostProbe (result : Result) : Client :=
  fun _ w => Some (Ret result, emit (EvMark (Host (Url (w_req w)))) w).

Definition mark_of (e : Event) : option string :=
  match e with
  | EvMark t => Some t
  | _ => None
  end.

(** The marks of the trace, in order. *)
Definition marks (w : World) : list string := omap mark_of (w_trace w).

Definition add_of (c : Counter) (e : Event) : option Z :=
  match e with
  | EvAdd c' delta =>
      if String.eqb (counter_name c') (counter_name c) then Some delta
      else None
  | _ => None
  end.

(** What the calls of [Add] in the trace have added to counter [c]. *)
Definition counter_value (c : Counter) (w : World) : Z :=
  foldr Z.add 0 (omap (add_of c) (w_trace w)).

Definition observe_of (h : Histogram) (e : Event) : option Z :=
  match e with
  | EvObserve h' v =>
      if String.eqb (histogram_name h') (histogram_name h) then Some v
      else None
  | _ => None
  end.

(** The values the trace has observed into histogram [h], in order. *)
Definition observations (h : Histogram) (w : World) : list Z :=
  omap (observe_of h) (w_trace w).

(** The world after [n] invocations of a director in a row. *)
Fixpoint invoke_n (dir : Director) (n : nat) (w : World) : World :=
  match n with
  | O => w
  | S n' => invoke_n dir n' (snd (dir w))
  end.

(** The contract of [Intn] in [math/rand]: a draw below a positive bound
    lies in [0, n). *)
Definition Intn_in_range : Prop :=
  forall g n, 0 < n -> 0 <= fst (Intn g n) < n.

Definition log_of (l : Logger) (e : Event) : option string :=
  match e with
  | EvLog l' record =>
      if String.eqb (lg_prefix l') (lg_prefix l) then Some record else None
  | _ => None
  end.

(** The records the trace has sent to logger [l], in order. *)
Definition records (l : Logger) (w : World) : list string :=
  omap (log_of l) (w_trace w).

Definition sleep_of (e : Event) : option Z :=
  match e with
  | EvSleep d => Some d
  | _ => None
  end.

(** The durations handed to [time.Sleep], in order. *)
Definition sleeps (w : World) : list Z := omap sleep_of (w_trace w).

(** The record [Logging] emits for request [r]. *)
Definition log_record (r : Request) : string :=
  Sprintf "%s: %s %s"
    [VFunc "func() string" UserAgent_fm;
     VString (Method r);
     VStringer (URL_String (Url r))].

(** [decoratorMain]: the client it assembles, over [base] in the place
    of [http.DefaultClient], with the logger and the metrics it builds
    (the bucket settings of the histogram are left to the collaborator);
    [time.Second] is 10^9 nanoseconds.  The world returned holds the cell
    of the director. *)
Definition decoratorMain (base : Client) (w : World) : Client * World :=
  let '(dir, w1) := RoundRobin 0 ["web01"; "web02"; "web03"]%string w in
  (Decorate base
     [Authorization "authorizationtokengoeshere";
      LoadBalancing dir;
      Logging (mkLogger "client: ");
      Instrumentation (mkCounter "client.requests")
        (mkHistogram "client.latency");
      FaultTolerance 5 1000000000],
   w1).

End Pipeline.

(** ** A concrete world *)

(** A request, a world without cells and generators whose generator
    type is [Z], and the collaborators of [decoratorMain]. *)
Definition example_request : Request :=
  mkRequest "GET" (mkURL "http" "example.com" "/")
    (Some {[ "User-Agent"%string := ["curl/8.0"%string] ]}).

Definition example_world : World (Rng := Z) :=
  mkWorld example_request [] 0 [] [].

Definition web_backends : list string :=
  ["web01"; "web02"; "web03"]%string.

Definition ok_response : Response := mkResponse 200.

(** A stand-in generator for the examples: the state is the seed, a draw
    is the state modulo the bound. *)
Definition lcg_source (seed : Z) : Z := seed.
Definition lcg_intn (g n : Z) : Z * Z :=
  (g mod n, (g * 1103515245 + 12345) mod 2 ^ 31).

Definition client_logger : Logger := mkLogger "client: ".
Definition client_requests : Counter := mkCounter "client.requests".
Definition client_latency : Histogram := mkHistogram "client.latency".

(** The result of a run with the trace it leaves. *)
Definition observed {A : Type} (run : option (A * World (Rng := Z)))
  : option (A * list Event) :=
  option_map (fun p => (fst p, w_trace (snd p))) run.

Definition failing_base : Client (Rng := Z) :=
  Recorder "base" (None, Some "boom"%string).

(** The world one attempt and one retry of [flaky2] leave, each followed
    by its sleep at a backoff of 100. *)
Definition exhausted_world : World (Rng := Z) :=
  Sleep 100 (emit (EvMark "base")
               (Sleep 0 (emit (EvMark "base") example_world))).

(** The example world with a request whose header map is nil. *)
Definition nil_header_world : World (Rng := Z) :=
  mkWorld (mkRequest "GET" (mkURL "http" "example.com" "/") None) [] 0 [] [].

(** A base that succeeds. *)
Definition ok_base : Client (Rng := Z) :=
  Recorder "base" (Some ok_response, None).

(** A base that fails twice and then succeeds. *)
Definition flaky2 : Client (Rng := Z) := Flaky "base" (0 + 2) ok_response.

(** The pipeline of [decoratorMain] over a recording base, with the
    director built first. *)
Definition main_director : Director (Rng := Z) :=
  fst (RoundRobin 0 web_backends example_world).
Definition main_world : World (Rng := Z) :=
  snd (RoundRobin 0 web_backends example_world).
Definition main_pipeline : list (Decorator (Rng := Z)) :=
  [Authorization "authorizationtokengoeshere";
   LoadBalancing main_director;
   Logging 4873056 client_logger;
   Instrumentation client_requests client_latency;
   FaultTolerance 5 1000000000].
Definition main_run : option (Outcome Result * World (Rng := Z)) :=
  Decorate failing_base main_pipeline 10%nat main_world.

(** * Properties *)

Section Properties.

(** The parameters of the pipeline, as in [Pipeline]. *)

Context {Rng : Type}.
Variable NewSource : Z -> Rng.
Variable Intn : Rng -> Z -> Z * Rng.
Variable UserAgent_fm : Z.

Implicit Types (c base : Client (Rng := Rng)).
Implicit Types (w wl : World (Rng := Rng)).
Implicit Types (dir : Director (Rng := Rng)).
Implicit Types (T : Decorator (Rng := Rng)).
Implicit Types (ds : list (Decorator (Rng := Rng))).

(** ** The retry loop *)

Lemma wrap64_id (z : Z) : min_int <= z <= max_int -> wrap64 z = z.
Proof.
  unfold wrap64, min_int, max_int. intros H.
  rewrite Z.mod_small by lia. lia.
Qed.

Lemma wrap64_succ_max : wrap64 (max_int + 1) = min_int.
Proof. reflexivity. Qed.

Lemma failed_run_loop attempts backoff c fuel m :
  forall i w cur w' cur' n,
    failed_run backoff c fuel i w cur m w' cur' ->
    min_int <= i <= max_int -> i + Z.of_nat m - 1 <= attempts ->
    attempts <= max_int ->
    FaultTolerance_loop attempts backoff c fuel i cur w (m + n) =
    FaultTolerance_loop attempts backoff c fuel (wrap64 (i + Z.of_nat m))
      cur' w' n.
Proof.
  induction m as [|m IH]; intros i w cur w' cur' n Hrun Hi Hm Ha.
  - inversion Hrun; subst. rewrite Z.add_0_r, wrap64_id by lia. reflexivity.
  - inversion Hrun as [|? ? ? res e w1 ? ? ? Hc Hrest]; subst.
    change (S m + n)%nat with (S (m + n)). cbn [FaultTolerance_loop].
    replace (i <=? attempts) with true by (symmetry; apply Z.leb_le; lia).
    unfold Do. rewrite Hc.
    destruct m as [|m'].
    + inversion Hrest; subst. reflexivity.
    + rewrite (wrap64_id (i + 1)) by lia.
      rewrite (IH _ _ _ _ _ n Hrest) by lia.
      f_equal. f_equal. lia.
Qed.

Lemma failed_run_exists backoff c count n0 k fuel :
  fails_then_succeeds c count n0 k ->
  forall m i w cur,
    count w + Z.of_nat m <= n0 + k ->
    exists w' cur',
      failed_run backoff c fuel i w cur m w' cur' /\
      count w' = count w + Z.of_nat m.
Proof.
  intros H m. induction m as [|m IH]; intros i w cur Hc.
  - exists w, cur. split; [constructor | lia].
  - destruct (fts_fail _ _ _ _ H fuel w) as (res & e & w1 & Hw); [lia|].
    pose proof (fts_step _ _ _ _ H _ _ _ _ Hw) as Hs.
    destruct (IH (i + 1) (Sleep (wrap64 (backoff * i)) w1) (res, Some e))
      as (w' & cur' & Hrun & Hcount).
    { rewrite (fts_sleep _ _ _ _ H). lia. }
    exists w', cur'. split; [econstructor; eauto|].
    rewrite Hcount, (fts_sleep _ _ _ _ H). lia.
Qed.

Lemma failed_run_last backoff c fuel m :
  forall i w cur w' cur',
    failed_run backoff c fuel i w cur (S m) w' cur' ->
    exists wl res e wl',
      c fuel wl = Some (Ret (res, Some e), wl') /\
      cur' = (res, Some e) /\
      w' = Sleep (wrap64 (backoff * (i + Z.of_nat m))) wl'.
Proof.
  induction m as [|m IH]; intros i w cur w' cur' Hrun;
    inversion Hrun as [|? ? ? res e w1 ? ? ? Hc Hrest]; subst.
  - inversion Hrest; subst. exists w, res, e, w1.
    rewrite Z.add_0_r. auto.
  - destruct (IH _ _ _ _ _ Hrest) as (wl & res' & e' & wl' & H1 & H2 & H3).
    exists wl, res', e', wl'. repeat split; auto.
    rewrite H3. do 3 f_equal. lia.
Qed.

(** The loop when the client succeeds on invocation [k + 1] and
    [k <= attempts]. *)
Lemma loop_succeeds attempts backoff c count n0 k fuel w n :
  fails_then_succeeds c count n0 k ->
  count w = n0 -> 0 <= k <= attempts -> attempts <= max_int ->
  (Z.to_nat k < n)%nat ->
  exists w1 cur1 res w',
    failed_run backoff c fuel 0 w (None, None) (Z.to_nat k) w1 cur1 /\
    c fuel w1 = Some (Ret (res, None), w') /\
    FaultTolerance_loop attempts backoff c fuel 0 (None, None) w n =
      Some (Ret (res, None), w') /\
    count w' = n0 + k + 1.
Proof.
  intros H Hw Hk Ha Hn.
  destruct (failed_run_exists backoff c count n0 k fuel H (Z.to_nat k) 0 w
              (None, None)) as (w1 & cur1 & Hrun & Hcount); [lia|].
  replace n with (Z.to_nat k + S (n - Z.to_nat k - 1))%nat by lia.
  rewrite (failed_run_loop attempts _ _ _ _ _ _ _ _ _ _ Hrun)
    by (unfold min_int, max_int in *; lia).
  rewrite Z2Nat.id, Z.add_0_l, wrap64_id
    by (unfold min_int, max_int in *; lia).
  cbn [FaultTolerance_loop].
  replace (k <=? attempts) with true by (symmetry; apply Z.leb_le; lia).
  destruct (fts_ok _ _ _ _ H fuel w1) as (res & w2 & Hc); [lia|].
  unfold Do. rewrite Hc. exists w1, cur1, res, w2.
  repeat split; auto.
  rewrite (fts_step _ _ _ _ H _ _ _ _ Hc). lia.
Qed.

(** The loop when the client is still failing on invocation
    [attempts + 1]. *)
Lemma loop_exhausted attempts backoff c count n0 k fuel w n :
  fails_then_succeeds c count n0 k ->
  count w = n0 -> 0 <= attempts < k -> attempts < max_int ->
  (Z.to_nat attempts + 1 < n)%nat ->
  exists res e w' wl wl',
    failed_run backoff c fuel 0 w (None, None) (S (Z.to_nat attempts))
      w' (res, Some e) /\
    FaultTolerance_loop attempts backoff c fuel 0 (None, None) w n =
      Some (Ret (res, Some e), w') /\
    count w' = n0 + attempts + 1 /\
    count wl = n0 + attempts /\
    c fuel wl = Some (Ret (res, Some e), wl') /\
    w' = Sleep (wrap64 (backoff * attempts)) wl'.
Proof.
  intros H Hw Hk Ha Hn.
  destruct (failed_run_exists backoff c count n0 k fuel H
              (S (Z.to_nat attempts)) 0 w (None, None))
    as (w1 & cur1 & Hrun & Hcount); [lia|].
  destruct (failed_run_last _ _ _ _ _ _ _ _ _ Hrun)
    as (wl & res & e & wl' & Hc & Hcur & Hw1).
  replace n with (S (Z.to_nat attempts) + S (n - Z.to_nat attempts - 2))%nat
    by lia.
  rewrite (failed_run_loop attempts _ _ _ _ _ _ _ _ _ _ Hrun)
    by (unfold min_int, max_int in *; lia).
  rewrite wrap64_id by (unfold min_int, max_int in *; lia).
  cbn [FaultTolerance_loop].
  replace (0 + Z.of_nat (S (Z.to_nat attempts)) <=? attempts) with false
    by (symmetry; apply Z.leb_gt; lia).
  rewrite Z.add_0_l, Z2Nat.id in Hw1 by lia.
  exists res, e, w1, wl, wl'. subst cur1. repeat split; auto; try lia.
  pose proof (fts_step _ _ _ _ H _ _ _ _ Hc) as Hs.
  rewrite Hw1, (fts_sleep _ _ _ _ H) in Hcount. lia.
Qed.

Lemma schedule_snoc tag backoff m :
  forall i,
    schedule tag backoff i (S m) =
    schedule tag backoff i m
      ++ [EvMark tag; EvSleep (wrap64 (backoff * (i + Z.of_nat m)))].
Proof.
  induction m as [|m IH]; intros i.
  - cbn. rewrite Z.add_0_r. reflexivity.
  - change (schedule tag backoff i (S (S m)))
      with (EvMark tag :: EvSleep (wrap64 (backoff * i))
              :: schedule tag backoff (i + 1) (S m)).
    rewrite IH. cbn [schedule app].
    replace (i + 1 + Z.of_nat m) with (i + Z.of_nat (S m)) by lia.
    reflexivity.
Qed.

Lemma failed_run_trace backoff c fuel tag :
  marks_invocation c tag ->
  forall m i w cur w' cur',
    failed_run backoff c fuel i w cur m w' cur' ->
    w_trace w' = w_trace w ++ schedule tag backoff i m.
Proof.
  intros Hmark m. induction m as [|m IH]; intros i w cur w' cur' Hrun;
    inversion Hrun as [|? ? ? res e w1 ? ? ? Hc Hrest]; subst.
  - cbn. now rewrite app_nil_r.
  - rewrite (IH _ _ _ _ _ Hrest). cbn [Sleep set_clock emit w_trace].
    rewrite (Hmark _ _ _ _ Hc). cbn [schedule].
    rewrite <- !app_assoc. reflexivity.
Qed.

(** [Flaky] is a client that fails [k] times and then succeeds, and it
    marks its invocations. *)
Lemma calls_emit_mark tag w :
  calls tag (emit (EvMark tag) w) = calls tag w + 1.
Proof.
  unfold calls, emit. cbn [w_trace].
  rewrite filter_app, length_app. cbn.
  rewrite String.eqb_refl. cbn.
  destruct (decide (true = true)); [cbn; lia | congruence].
Qed.

Lemma calls_Sleep tag d w : calls tag (Sleep d w) = calls tag w.
Proof.
  unfold calls, Sleep, set_clock, emit. cbn [w_trace].
  rewrite filter_app, length_app. cbn.
  destruct (decide (false = true)); [congruence | cbn; lia].
Qed.

Lemma Flaky_fails_then_succeeds tag k resp n0 :
  fails_then_succeeds (Flaky (Rng := Rng) tag (n0 + k) resp) (calls tag) n0 k.
Proof.
  split.
  - intros. apply calls_Sleep.
  - unfold Flaky. intros fuel w o w1 H.
    destruct (calls tag w <? n0 + k); inversion H; subst;
      apply calls_emit_mark.
  - unfold Flaky. intros fuel w Hlt.
    replace (calls tag w <? n0 + k) with true
      by (symmetry; apply Z.ltb_lt; lia).
    eauto.
  - unfold Flaky. intros fuel w Heq.
    replace (calls tag w <? n0 + k) with false
      by (symmetry; apply Z.ltb_ge; lia).
    eauto.
Qed.

Lemma Flaky_marks_invocation tag k resp :
  marks_invocation (Flaky (Rng := Rng) tag k resp) tag.
Proof.
  unfold marks_invocation, Flaky. intros fuel w o w1 H.
  destruct (calls tag w <? k); inversion H; subst; reflexivity.
Qed.

(** At [attempts = max_int] the counter wraps to [min_int] after the
    attempt numbered [max_int], the condition of the loop still holds,
    and a client that fails [max_int + 1] times is invoked once more. *)
Lemma loop_wraps backoff c count n0 fuel w m n :
  Z.of_nat m = max_int + 1 ->
  fails_then_succeeds c count n0 (max_int + 1) ->
  count w = n0 -> (m < n)%nat ->
  exists res w',
    FaultTolerance_loop max_int backoff c fuel 0 (None, None) w n =
      Some (Ret (res, None), w') /\
    count w' = n0 + max_int + 2.
Proof.
  intros Hm H Hw Hn.
  destruct (failed_run_exists backoff c count n0 (max_int + 1) fuel H m 0 w
              (None, None)) as (w1 & cur1 & Hrun & Hcount); [lia|].
  replace n with (m + S (n - m - 1))%nat by lia.
  rewrite (failed_run_loop max_int _ _ _ _ _ _ _ _ _ _ Hrun)
    by (unfold min_int, max_int in *; lia).
  rewrite Z.add_0_l, Hm, wrap64_succ_max.
  cbn [FaultTolerance_loop].
  replace (min_int <=? max_int) with true by reflexivity.
  destruct (fts_ok _ _ _ _ H fuel w1) as (res & w2 & Hc); [lia|].
  unfold Do. rewrite Hc. exists res, w2. split; [reflexivity|].
  rewrite (fts_step _ _ _ _ H _ _ _ _ Hc). lia.
Qed.

Lemma FaultTolerance_wraps backoff c count n0 fuel w :
  fails_then_succeeds c count n0 (max_int + 1) ->
  count w = n0 -> (Z.to_nat (max_int + 1) < fuel)%nat ->
  exists res w',
    FaultTolerance max_int backoff c fuel w = Some (Ret (res, None), w') /\
    count w' = n0 + max_int + 2.
Proof.
  intros H Hw Hn. unfold FaultTolerance, ClientFunc.
  assert (Hm : Z.of_nat (Z.to_nat (max_int + 1)) = max_int + 1)
    by (apply Z2Nat.id; unfold max_int; lia).
  exact (loop_wraps backoff c count n0 fuel w (Z.to_nat (max_int + 1)) fuel
           Hm H Hw Hn).
Qed.

(** ** Composition *)

Lemma Decorate_snoc c ds d :
  Decorate c (ds ++ [d]) = d (Decorate c ds).
Proof. unfold Decorate. now rewrite fold_left_app. Qed.

(** C1: [Decorate] starts from the base and applies the transforms first
    to last, so the last one is outermost: [Decorate base [T1; T2]] is
    [T2 (T1 base)], and with recording transforms the base runs after
    the marks pre-T2, pre-T1 and is followed by the marks post-T1,
    post-T2; around a recording base the trace gains pre-T2, pre-T1, base,
    post-T1, post-T2. *)
Theorem Decorate_order :
  (forall c, Decorate c [] = c) /\
  (forall c d ds, Decorate c (d :: ds) = Decorate (d c) ds) /\
  (forall c ds d, Decorate c (ds ++ [d]) = d (Decorate c ds)) /\
  (forall c T1 T2, Decorate c [T1; T2] = T2 (T1 c)) /\
  (forall c pre1 post1 pre2 post2 fuel w r w1,
      c fuel (emit (EvMark pre1) (emit (EvMark pre2) w)) = Some (Ret r, w1) ->
      Decorate c [Around pre1 post1; Around pre2 post2] fuel w =
      Some (Ret r, emit (EvMark post2) (emit (EvMark post1) w1))) /\
  (forall tag r pre1 post1 pre2 post2 fuel w,
      exists w',
        Decorate (Recorder tag r)
          [Around pre1 post1; Around pre2 post2] fuel w = Some (Ret r, w') /\
        w_trace w' =
        w_trace w ++ [EvMark pre2; EvMark pre1; EvMark tag;
                      EvMark post1; EvMark post2]).
Proof.
  repeat split; try reflexivity.
  - intros. apply Decorate_snoc.
  - intros c pre1 post1 pre2 post2 fuel w r w1 H.
    cbn [Decorate fold_left]. unfold Around. now rewrite H.
  - intros. eexists. split; [reflexivity|].
    cbn [emit w_trace]. rewrite <- !app_assoc. reflexivity.
Qed.

(** ** Instrumentation *)

(** C4: whatever the delegated call does once it is over (a response, a
    failure or a panic), [Instrumentation] hands that outcome on and has
    called [Observe] and then [Add(1)] exactly once each, after the
    delegated call. *)
Theorem Instrumentation_records_once requests latency c fuel w o w1 :
  c fuel w = Some (o, w1) ->
  exists w',
    Instrumentation requests latency c fuel w = Some (o, w') /\
    w_trace w' =
    w_trace w1 ++ [EvObserve latency (Since (w_clock w) w1);
                   EvAdd requests 1].
Proof.
  intros H. unfold Instrumentation, ClientFunc, Do. rewrite H.
  eexists. split; [reflexivity|].
  cbn [Add Observe emit w_trace]. now rewrite <- app_assoc.
Qed.

(** ** Results pass through *)

Lemma FaultTolerance_loop_result attempts backoff c fuel n :
  forall i cur w r w',
    FaultTolerance_loop attempts backoff c fuel i cur w n =
      Some (Ret r, w') ->
    (r = cur /\ attempts < i) \/
    exists w1 w1', c fuel w1 = Some (Ret r, w1').
Proof.
  induction n as [|n IH]; intros i cur w r w' H; [discriminate|].
  cbn [FaultTolerance_loop] in H.
  destruct (Z.leb_spec i attempts) as [Hle|Hgt].
  - right. unfold Do in H.
    destruct (c fuel w) as [[[[res [e|]]|] w1]|] eqn:Hc; try discriminate.
    + destruct (IH _ _ _ _ _ H) as [[-> _]|Hex]; eauto.
    + inversion H; subst. eauto.
  - left. inversion H; subst. split; [reflexivity | lia].
Qed.

Lemma hands_on_result d c fuel w r w' :
  hands_on UserAgent_fm d ->
  d c fuel w = Some (Ret r, w') ->
  exists w1 w1', c fuel w1 = Some (Ret r, w1').
Proof.
  intros [d' [l|requests latency|name value|dir] | attempts backoff Ha] H.
  - eauto.
  - unfold Instrumentation, ClientFunc, Do in H.
    destruct (c fuel w) as [[o w1]|] eqn:Hc; [|discriminate].
    inversion H; subst. eauto.
  - unfold Header, ClientFunc, Do in H.
    destruct (HdrRef (w_req w)); [eauto | discriminate].
  - unfold LoadBalancing, ClientFunc, Do in H.
    destruct (dir w) as [[[]|] w1]; [eauto | discriminate].
  - unfold FaultTolerance, ClientFunc in H.
    destruct (FaultTolerance_loop_result _ _ _ _ _ _ _ _ _ _ H)
      as [[_ Hlt]|Hex]; [lia | exact Hex].
Qed.

Lemma Decorate_hands_on ds :
  forall base fuel w r w',
    Forall (hands_on UserAgent_fm) ds ->
    Decorate base ds fuel w = Some (Ret r, w') ->
    exists w1 w1', base fuel w1 = Some (Ret r, w1').
Proof.
  induction ds as [|d ds IH] using rev_ind; intros base fuel w r w' Hds H.
  - eauto.
  - rewrite Decorate_snoc in H.
    apply Forall_app in Hds as [Hds Hd]. inversion Hd; subst.
    destruct (hands_on_result _ _ _ _ _ _ ltac:(eassumption) H)
      as (w1 & w1' & H1).
    eapply IH; eauto.
Qed.

(** C5: [Logging], [Header] (and so [Authorization]), [LoadBalancing]
    and [Instrumentation] return the outcome of the wrapped client as it
    is; hence what a pipeline of such layers returns is a result that the
    base produced. *)
Theorem pass_through_unchanged :
  (forall l c fuel w,
      Logging UserAgent_fm l c fuel w =
      c fuel (Printf l "%s: %s %s"
                [VFunc "func() string" UserAgent_fm;
                 VString (Method (w_req w));
                 VStringer (URL_String (Url (w_req w)))] w)) /\
  (forall name value c fuel w,
      Header name value c fuel w =
      match HdrRef (w_req w) with
      | Some _ => c fuel (set_req (add_header name value) w)
      | None => Some (Panic, w)
      end) /\
  (forall token c fuel w,
      Authorization token c fuel w =
      match HdrRef (w_req w) with
      | Some _ => c fuel (set_req (add_header "Authorization" token) w)
      | None => Some (Panic, w)
      end) /\
  (forall dir c fuel w w1,
      dir w = (Ret tt, w1) -> LoadBalancing dir c fuel w = c fuel w1) /\
  (forall requests latency c fuel w,
      match c fuel w with
      | Some (o, w1) =>
          exists w', Instrumentation requests latency c fuel w = Some (o, w')
      | None => Instrumentation requests latency c fuel w = None
      end) /\
  (forall ds base fuel w r w',
      Forall (hands_on UserAgent_fm) ds ->
      Decorate base ds fuel w = Some (Ret r, w') ->
      exists w1 w1', base fuel w1 = Some (Ret r, w1')).
Proof.
  repeat split; try reflexivity.
  - intros dir c fuel w w1 H. unfold LoadBalancing, ClientFunc, Do.
    now rewrite H.
  - intros requests latency c fuel w.
    unfold Instrumentation, ClientFunc, Do.
    destruct (c fuel w) as [[o w1]|]; eauto.
  - intros ds. apply Decorate_hands_on.
Qed.

(** ** Fault tolerance *)

(** C10: with a negative number of attempts the loop body never runs:
    whatever the wrapped client is, it is not invoked, the world is as
    it was, and the sender returns neither a response nor a failure. *)
Theorem FaultTolerance_negative_attempts attempts backoff c fuel w :
  attempts < 0 ->
  FaultTolerance attempts backoff c (S fuel) w = Some (Ret (None, None), w).
Proof.
  intros H. unfold FaultTolerance, ClientFunc. cbn [FaultTolerance_loop].
  replace (0 <=? attempts) with false by (symmetry; apply Z.leb_gt; lia).
  reflexivity.
Qed.

(** C2, amended: for [0 <= attempts] and a client that fails on its first
    [k] invocations and succeeds on the next: when [k <= attempts] the
    sender returns the success of invocation [k + 1] after exactly
    [k + 1] invocations; when [attempts < k] and [attempts] is below the
    largest [int], it returns the failure of invocation [attempts + 1]
    after exactly [attempts + 1] invocations. *)
Theorem FaultTolerance_invocations attempts backoff c count n0 k fuel w :
  fails_then_succeeds c count n0 k ->
  count w = n0 -> 0 <= k -> 0 <= attempts <= max_int ->
  (k <= attempts -> (Z.to_nat k < fuel)%nat ->
   exists res w' wl,
     FaultTolerance attempts backoff c fuel w = Some (Ret (res, None), w') /\
     count w' = n0 + k + 1 /\
     count wl = n0 + k /\ c fuel wl = Some (Ret (res, None), w')) /\
  (attempts < k -> attempts < max_int ->
   (Z.to_nat attempts + 1 < fuel)%nat ->
   exists res e w' wl wl',
     FaultTolerance attempts backoff c fuel w =
       Some (Ret (res, Some e), w') /\
     count w' = n0 + attempts + 1 /\
     count wl = n0 + attempts /\
     c fuel wl = Some (Ret (res, Some e), wl')).
Proof.
  intros H Hw Hk Ha. split.
  - intros Hle Hfuel.
    destruct (loop_succeeds attempts backoff c count n0 k fuel w fuel H)
      as (w1 & cur1 & res & w' & _ & Hc & Hloop & Hcount); auto; try lia.
    exists res, w', w1. repeat split; auto.
    pose proof (fts_step _ _ _ _ H _ _ _ _ Hc). lia.
  - intros Hlt Hmax Hfuel.
    destruct (loop_exhausted attempts backoff c count n0 k fuel w fuel H)
      as (res & e & w' & wl & wl' & _ & Hloop & Hc1 & Hc2 & Hc & _);
      auto; try lia.
    exists res, e, w', wl, wl'. auto.
Qed.

(** The whole trace of the loop around a client that marks its
    invocations: [m] failed attempts, each followed by its sleep, and
    then either one more attempt that does not fail and no sleep, or
    nothing more when the attempts are used up. *)
Lemma FaultTolerance_loop_schedule attempts backoff c tag fuel n :
  marks_invocation c tag ->
  attempts < max_int ->
  forall i cur w o w',
    FaultTolerance_loop attempts backoff c fuel i cur w n = Some (o, w') ->
    min_int <= i <= max_int ->
    exists m : nat,
      (w_trace w' = w_trace w ++ schedule tag backoff i m ++ [EvMark tag] /\
       i + Z.of_nat m <= attempts /\
       forall res e, o <> Ret (res, Some e))
      \/
      (w_trace w' = w_trace w ++ schedule tag backoff i m /\
       Z.of_nat m = Z.max 0 (attempts + 1 - i) /\
       ((m = 0%nat /\ o = Ret cur) \/
        (m <> 0%nat /\ exists res e, o = Ret (res, Some e)))).
Proof.
  intros Hmark Ha. induction n as [|n IH]; intros i cur w o w' H Hi;
    [discriminate|].
  cbn [FaultTolerance_loop] in H.
  destruct (Z.leb_spec i attempts) as [Hle|Hgt].
  - unfold Do in H.
    destruct (c fuel w) as [[x w1]|] eqn:Hc; [|discriminate].
    pose proof (Hmark _ _ _ _ Hc) as Htr.
    destruct x as [[res [e|]]|].
    + rewrite wrap64_id in H by (unfold min_int, max_int in *; lia).
      apply IH in H; [|unfold min_int, max_int in *; lia].
      destruct H as [m [(Ht & Hm & Ho) | (Ht & Hm & Ho)]]; exists (S m).
      * left. split; [|split; [lia | exact Ho]].
        rewrite Ht. cbn [Sleep set_clock emit w_trace schedule].
        rewrite Htr, <- !app_assoc. reflexivity.
      * right. split; [|split; [lia|]].
        -- rewrite Ht. cbn [Sleep set_clock emit w_trace schedule].
           rewrite Htr, <- !app_assoc. reflexivity.
        -- right. split; [congruence|].
           destruct Ho as [[_ ->] | [_ Hex]]; eauto.
    + inversion H; subst. exists 0%nat. left.
      split; [rewrite Htr; reflexivity|]. split; [lia | discriminate].
    + inversion H; subst. exists 0%nat. left.
      split; [rewrite Htr; reflexivity|]. split; [lia | discriminate].
  - inversion H; subst. exists 0%nat. right.
    split; [cbn; now rewrite app_nil_r|]. split; [lia|]. left. auto.
Qed.

(** C3, amended: around a client whose invocations are marked in the
    trace, a sleep follows every failed attempt, the last one of a run
    that uses up its attempts included, and lasts [backoff * i] in
    [int64] arithmetic for the loop counter [i] of that attempt, from 0:
    the first retry follows a sleep of zero, retry [j] a sleep of
    [backoff * (j - 1)], and a run of [attempts + 1] failures ends with a
    sleep of [backoff * attempts]; no sleep follows an attempt that does
    not fail.  For [attempts] below the largest [int] this is the trace of
    every call that returns; for a client that fails [k] times and then
    succeeds the call returns, after [min k (attempts + 1)] failed
    attempts. *)
Theorem FaultTolerance_backoff attempts backoff c tag fuel w :
  marks_invocation c tag ->
  (attempts < max_int ->
   forall o w',
     FaultTolerance attempts backoff c fuel w = Some (o, w') ->
     exists m : nat,
       (w_trace w' = w_trace w ++ schedule tag backoff 0 m ++ [EvMark tag] /\
        Z.of_nat m <= attempts /\
        forall res e, o <> Ret (res, Some e))
       \/
       (w_trace w' = w_trace w ++ schedule tag backoff 0 m /\
        Z.of_nat m = Z.max 0 (attempts + 1) /\
        ((m = 0%nat /\ o = Ret (None, None)) \/
         (m <> 0%nat /\ exists res e, o = Ret (res, Some e))))) /\
  (forall n0 k,
      fails_then_succeeds c (calls tag) n0 k ->
      calls tag w = n0 -> 0 <= k -> 0 <= attempts <= max_int ->
      k <= attempts \/ attempts < max_int ->
      (Z.to_nat (Z.min k attempts) + 1 < fuel)%nat ->
      exists o w',
        FaultTolerance attempts backoff c fuel w = Some (o, w') /\
        w_trace w' =
          w_trace w
            ++ schedule tag backoff 0 (Z.to_nat (Z.min k (attempts + 1)))
            ++ (if k <=? attempts then [EvMark tag] else [])).
Proof.
  intros Hmark. split.
  - intros Ha o w' H. unfold FaultTolerance, ClientFunc in H.
    destruct (FaultTolerance_loop_schedule attempts backoff c tag fuel fuel
                Hmark Ha 0 (None, None) w o w' H
                ltac:(unfold min_int, max_int; lia)) as [m Hm].
    exists m. rewrite Z.add_0_l, Z.sub_0_r in Hm. exact Hm.
  - intros n0 k H Hw Hk Ha Hor Hfuel.
    destruct (Z.leb_spec k attempts) as [Hle|Hlt].
    + rewrite Z.min_l in Hfuel by lia. rewrite Z.min_l by lia.
      destruct (loop_succeeds attempts backoff c (calls tag) n0 k fuel w fuel
                  H)
        as (w1 & cur1 & res & w' & Hrun & Hc & Hloop & _); auto; try lia.
      exists (Ret (res, None)), w'. split; [exact Hloop|].
      rewrite (Hmark _ _ _ _ Hc),
        (failed_run_trace _ _ _ _ Hmark _ _ _ _ _ _ Hrun).
      now rewrite <- app_assoc.
    + rewrite Z.min_r in Hfuel by lia. rewrite Z.min_r by lia.
      destruct (loop_exhausted attempts backoff c (calls tag) n0 k fuel w
                  fuel H)
        as (res & e & w' & wl & wl' & Hrun & Hloop & _); auto; try lia.
      exists (Ret (res, Some e)), w'. split; [exact Hloop|].
      rewrite (failed_run_trace _ _ _ _ Hmark _ _ _ _ _ _ Hrun).
      rewrite app_nil_r. do 2 f_equal. lia.
Qed.

(** ** Logging *)

(** One invocation of [Logging] emits one record and then delegates; the
    record is built from the method value, the method and the URL, and
    no header of the request takes part in it. *)
Lemma Logging_one_record l c fuel w :
  exists record,
    Logging UserAgent_fm l c fuel w = c fuel (emit (EvLog l record) w) /\
    forall h,
      Logging UserAgent_fm l c fuel (set_req (fun r => mkRequest (Method r) (Url r) h) w) =
      c fuel (emit (EvLog l record)
                (set_req (fun r => mkRequest (Method r) (Url r) h) w)).
Proof. eexists. split; [reflexivity | intros h; reflexivity]. Qed.

(** ** Directors *)

(** C7: a [RoundRobin] and a [Random] director built over no backend
    return without a panic and leave the whole world, the host of the
    request with it, as they found it; [LoadBalancing] with such a
    director is the wrapped client. *)
Theorem empty_backends_noop robin seed w0 w :
  let rr := fst (RoundRobin robin [] w0) in
  let rd := fst (Random NewSource Intn seed [] w0) in
  rr w = (Ret tt, w) /\ rd w = (Ret tt, w) /\
  Host (Url (w_req (snd (rr w)))) = Host (Url (w_req w)) /\
  Host (Url (w_req (snd (rd w)))) = Host (Url (w_req w)) /\
  (forall c fuel, LoadBalancing rr c fuel w = c fuel w) /\
  (forall c fuel, LoadBalancing rd c fuel w = c fuel w).
Proof. repeat split. Qed.

(** One invocation of a round-robin director over a list that is not
    empty: the cell gets the incremented value, and the host the backend
    at that value modulo the length. *)
Lemma RoundRobin_director_step loc backends w v :
  backends <> [] ->
  w_cells w !! loc = Some v ->
  RoundRobin_director loc backends w =
  (Ret tt,
   set_req (set_host (nth (Z.to_nat (wrapU64 (v + 1) mod len backends))
                        backends EmptyString))
     (set_cells (<[loc := wrapU64 (v + 1)]> (w_cells w)) w)).
Proof.
  intros Hne Hv. unfold RoundRobin_director. rewrite Hv.
  assert (Hlen : 0 < len backends).
  { unfold len. destruct backends; [congruence | cbn; lia]. }
  replace (0 <? len backends) with true by (symmetry; apply Z.ltb_lt; lia).
  cbn zeta.
  pose proof (Z.mod_pos_bound (wrapU64 (v + 1)) (len backends) Hlen) as Hb.
  destruct (backends !! Z.to_nat (wrapU64 (v + 1) mod len backends))
    as [b|] eqn:Hl.
  - rewrite (nth_lookup_Some _ _ EmptyString _ Hl). reflexivity.
  - apply lookup_ge_None in Hl. unfold len in *. lia.
Qed.

Lemma hosts_selected_RoundRobin loc backends n :
  backends <> [] ->
  forall w v,
    w_cells w !! loc = Some v -> 0 <= v -> v + Z.of_nat n < 2 ^ 64 ->
    hosts_selected (RoundRobin_director loc backends) n w =
    map (fun j => nth (Z.to_nat ((v + Z.of_nat j) mod len backends))
                    backends EmptyString)
        (seq 1 n).
Proof.
  intros Hne. induction n as [|n IH]; intros w v Hv H0 Hn; [reflexivity|].
  cbn [hosts_selected seq map].
  rewrite (RoundRobin_director_step _ _ _ _ Hne Hv). cbn [snd].
  assert (Hw : wrapU64 (v + 1) = v + 1)
    by (unfold wrapU64; apply Z.mod_small; lia).
  rewrite Hw. f_equal.
  erewrite IH; cycle 1.
  - cbn [set_req set_cells w_cells].
    apply list_lookup_insert_eq. now apply lookup_lt_Some in Hv.
  - lia.
  - lia.
  - rewrite <- (seq_shift n 1), map_map. apply map_ext. intros j.
    do 3 f_equal. lia.
Qed.

Lemma picks_mod robin :
  map (fun j => (robin + Z.of_nat j) mod 3) (seq 1 9) =
  map (fun j => (robin mod 3 + Z.of_nat j) mod 3) (seq 1 9).
Proof.
  apply map_ext. intros j. now rewrite Z.add_mod_idemp_l by lia.
Qed.

(** C8, amended: for a starting counter [robin] with
    [robin + 9 < 2 ^ 64] and three backends, every invocation increments
    the cell and sets the host to the backend at the new value modulo 3;
    over 9 invocations in a row the positions selected are those of
    [robin + 1 .. robin + 9] modulo 3, each of the three positions is
    selected exactly 3 times, and the selection repeats with period
    3. *)
Theorem RoundRobin_three_backends robin b0 b1 b2 w :
  0 <= robin -> robin + 9 < 2 ^ 64 ->
  let backends := [b0; b1; b2] in
  let loc := length (w_cells w) in
  let dir := fst (RoundRobin robin backends w) in
  let w1 := snd (RoundRobin robin backends w) in
  let picks := map (fun j => (robin + Z.of_nat j) mod 3) (seq 1 9) in
  w_cells w1 !! loc = Some robin /\
  (forall w' v,
      w_cells w' !! loc = Some v ->
      dir w' =
      (Ret tt,
       set_req (set_host (nth (Z.to_nat (wrapU64 (v + 1) mod 3))
                            backends EmptyString))
         (set_cells (<[loc := wrapU64 (v + 1)]> (w_cells w')) w'))) /\
  hosts_selected dir 9 w1 =
    map (fun p => nth (Z.to_nat p) backends EmptyString) picks /\
  (forall p, 0 <= p < 3 -> count_occ Z.eq_dec picks p = 3%nat) /\
  (forall j, (j + 3 < 9)%nat -> nth (j + 3) picks 0 = nth j picks 0).
Proof.
  intros H0 H9 backends loc dir w1 picks.
  assert (Hcell : w_cells w1 !! loc = Some robin).
  { subst w1 loc. cbn [RoundRobin snd set_cells w_cells].
    rewrite lookup_app_r by lia. now rewrite Nat.sub_diag. }
  assert (Hne : backends <> []) by discriminate.
  split; [exact Hcell|]. split; [|split; [|split]].
  - intros w' v Hv.
    exact (RoundRobin_director_step loc backends w' v Hne Hv).
  - assert (Hsel := hosts_selected_RoundRobin loc backends 9 Hne w1 robin
                        Hcell H0 ltac:(cbn; lia)).
    change (RoundRobin_director loc backends) with dir in Hsel.
    rewrite Hsel. subst picks. rewrite map_map. reflexivity.
  - intros p Hp. subst picks. rewrite picks_mod.
    pose proof (Z.mod_pos_bound robin 3 eq_refl) as Hr.
    assert (Hcases : robin mod 3 = 0 \/ robin mod 3 = 1 \/ robin mod 3 = 2)
      by lia.
    assert (Hpc : p = 0 \/ p = 1 \/ p = 2) by lia.
    destruct Hcases as [-> | [-> | ->]];
      destruct Hpc as [-> | [-> | ->]]; reflexivity.
  - intros j Hj. subst picks. rewrite picks_mod.
    pose proof (Z.mod_pos_bound robin 3 eq_refl) as Hr.
    assert (Hcases : robin mod 3 = 0 \/ robin mod 3 = 1 \/ robin mod 3 = 2)
      by lia.
    do 6 (destruct j as [|j]; [destruct Hcases as [-> | [-> | ->]];
                               reflexivity|]).
    lia.
Qed.

(** ** Headers *)

Lemma Header_Add_lookup name value (h : http_Header) k :
  Header_Add name value h !! k =
  if decide (k = CanonicalMIMEHeaderKey name)
  then Some (default [] (h !! k) ++ [value])
  else h !! k.
Proof.
  unfold Header_Add. cbn zeta. case_decide as Hk.
  - subst k. apply lookup_insert_eq.
  - apply lookup_insert_ne. congruence.
Qed.

Lemma Header_on_map name value c fuel w h :
  HdrRef (w_req w) = Some h ->
  Header name value c fuel w = c fuel (set_req (add_header name value) w) /\
  Hdr (w_req (set_req (add_header name value) w)) = Header_Add name value h.
Proof.
  intros H. unfold Header, ClientFunc, Do. rewrite H. split; [reflexivity|].
  assert (Hh : Hdr (w_req w) = h) by (unfold Hdr; now rewrite H).
  change (Hdr (w_req (set_req (add_header name value) w)))
    with (Header_Add name value (Hdr (w_req w))).
  now rewrite Hh.
Qed.

(** C9, amended: on a request whose header map is not nil,
    [Header name value] hands the wrapped client a request in which
    [value] stands at the end of the values of the canonical key of
    [name]; the values a key had stay, in their order, in front of what
    is added, and nothing else of the world changes; two [Header] layers
    add both values, twice the same one when they are equal; and
    [Authorization token] is [Header "Authorization" token]. *)
Theorem Header_appends :
  (forall name value w h,
      HdrRef (w_req w) = Some h ->
      exists w1,
        (forall c fuel, Header name value c fuel w = c fuel w1) /\
        (forall k,
            Hdr (w_req w1) !! k =
            if decide (k = CanonicalMIMEHeaderKey name)
            then Some (default [] (h !! k) ++ [value])
            else h !! k) /\
        (forall k vs,
            h !! k = Some vs ->
            exists added, Hdr (w_req w1) !! k = Some (vs ++ added)) /\
        HdrRef (w_req w1) <> None /\
        Method (w_req w1) = Method (w_req w) /\
        Url (w_req w1) = Url (w_req w) /\
        w_trace w1 = w_trace w /\ w_clock w1 = w_clock w /\
        w_cells w1 = w_cells w /\ w_rngs w1 = w_rngs w) /\
  (forall n1 v1 n2 v2 w h,
      HdrRef (w_req w) = Some h ->
      exists w2,
        (forall c fuel,
            Decorate c [Header n1 v1; Header n2 v2] fuel w = c fuel w2) /\
        forall k,
          Hdr (w_req w2) !! k =
          let second :=
            if decide (k = CanonicalMIMEHeaderKey n2)
            then Some (default [] (h !! k) ++ [v2])
            else h !! k in
          if decide (k = CanonicalMIMEHeaderKey n1)
          then Some (default [] second ++ [v1])
          else second) /\
  (forall name value w h,
      HdrRef (w_req w) = Some h ->
      exists w2,
        (forall c fuel,
            Decorate c [Header name value; Header name value] fuel w =
            c fuel w2) /\
        Hdr (w_req w2) !! CanonicalMIMEHeaderKey name =
        Some (default [] (h !! CanonicalMIMEHeaderKey name)
                ++ [value; value])) /\
  (forall token,
      Authorization (Rng := Rng) token = Header "Authorization" token) /\
  (forall token w h,
      HdrRef (w_req w) = Some h ->
      exists w1,
        (forall c fuel, Authorization token c fuel w = c fuel w1) /\
        Hdr (w_req w1) !! "Authorization"%string =
        Some (default [] (h !! "Authorization"%string) ++ [token])).
Proof.
  assert (Hone : forall name value w h,
             HdrRef (w_req w) = Some h ->
             (forall c fuel,
                 Header name value c fuel w =
                 c fuel (set_req (add_header name value) w)) /\
             forall k,
               Hdr (w_req (set_req (add_header name value) w)) !! k =
               if decide (k = CanonicalMIMEHeaderKey name)
               then Some (default [] (h !! k) ++ [value])
               else h !! k).
  { intros name value w h H. split.
    - intros c fuel. exact (proj1 (Header_on_map name value c fuel w h H)).
    - intros k.
      rewrite (proj2 (Header_on_map name value (fun _ _ => None) 0%nat w h H)).
      apply Header_Add_lookup. }
  assert (Htwo : forall n1 v1 n2 v2 w h,
             HdrRef (w_req w) = Some h ->
             (forall c fuel,
                 Decorate c [Header n1 v1; Header n2 v2] fuel w =
                 c fuel (set_req (add_header n1 v1)
                           (set_req (add_header n2 v2) w))) /\
             forall k,
               Hdr (w_req (set_req (add_header n1 v1)
                             (set_req (add_header n2 v2) w))) !! k =
               let second :=
                 if decide (k = CanonicalMIMEHeaderKey n2)
                 then Some (default [] (h !! k) ++ [v2])
                 else h !! k in
               if decide (k = CanonicalMIMEHeaderKey n1)
               then Some (default [] second ++ [v1])
               else second).
  { intros n1 v1 n2 v2 w h H.
    destruct (Hone n2 v2 w h H) as [Hc2 Hk2].
    assert (H2 : HdrRef (w_req (set_req (add_header n2 v2) w)) =
                 Some (Header_Add n2 v2 (Hdr (w_req w)))) by reflexivity.
    destruct (Hone n1 v1 _ _ H2) as [Hc1 Hk1]. split.
    - intros c fuel. cbn [Decorate fold_left]. now rewrite Hc2, Hc1.
    - intros k. rewrite Hk1. cbn zeta.
      replace (Header_Add n2 v2 (Hdr (w_req w)) !! k)
        with (Hdr (w_req (set_req (add_header n2 v2) w)) !! k) by reflexivity.
      now rewrite Hk2. }
  split; [|split; [|split; [|split; [reflexivity|]]]].
  - intros name value w h H. destruct (Hone name value w h H) as [Hc Hk].
    exists (set_req (add_header name value) w).
    split; [exact Hc|]. split; [exact Hk|]. split.
    { intros k vs Hvs. rewrite Hk, Hvs.
      case_decide; [exists [value] | exists []]; cbn;
        now rewrite ?app_nil_r. }
    repeat split. discriminate.
  - intros n1 v1 n2 v2 w h H. destruct (Htwo n1 v1 n2 v2 w h H) as [Hc Hk].
    eexists. split; [exact Hc | exact Hk].
  - intros name value w h H.
    destruct (Htwo name value name value w h H) as [Hc Hk].
    eexists. split; [exact Hc|].
    rewrite Hk. cbn zeta. rewrite !decide_True by reflexivity.
    cbn. now rewrite <- app_assoc.
  - intros token w h H.
    destruct (Hone "Authorization"%string token w h H) as [Hc Hk].
    eexists. split; [exact Hc|].
    rewrite Hk. now rewrite decide_True by reflexivity.
Qed.

(** ** More on the retry loop *)

Lemma always_fails_run backoff c fuel :
  always_fails c ->
  forall m i w cur,
    exists w' cur', failed_run backoff c fuel i w cur m w' cur'.
Proof.
  intros H m. induction m as [|m IH]; intros i w cur.
  - exists w, cur. constructor.
  - destruct (H fuel w) as (res & e & w1 & Hc).
    destruct (IH (i + 1) (Sleep (wrap64 (backoff * i)) w1) (res, Some e))
      as (w' & cur' & Hrun).
    exists w', cur'. econstructor; eauto.
Qed.

(** Against a client that always fails the loop makes [attempts + 1]
    attempts and returns the last failure. *)
Lemma FaultTolerance_exhausts attempts backoff c fuel w :
  always_fails c ->
  0 <= attempts < max_int -> (Z.to_nat attempts + 1 < fuel)%nat ->
  exists res e w',
    FaultTolerance attempts backoff c fuel w = Some (Ret (res, Some e), w') /\
    failed_run backoff c fuel 0 w (None, None) (S (Z.to_nat attempts))
      w' (res, Some e).
Proof.
  intros H Ha Hfuel.
  destruct (always_fails_run backoff c fuel H (S (Z.to_nat attempts)) 0 w
              (None, None)) as (w' & cur' & Hrun).
  destruct (failed_run_last _ _ _ _ _ _ _ _ _ Hrun)
    as (wl & res & e & wl' & _ & Hcur & _).
  subst cur'. exists res, e, w'. split; [|exact Hrun].
  unfold FaultTolerance, ClientFunc.
  replace fuel
    with (S (Z.to_nat attempts) + S (fuel - Z.to_nat attempts - 2))%nat
    at 2 by lia.
  rewrite (failed_run_loop attempts _ _ _ _ _ _ _ _ _ _ Hrun)
    by (unfold min_int, max_int in *; lia).
  rewrite wrap64_id by (unfold min_int, max_int in *; lia).
  cbn [FaultTolerance_loop].
  replace (0 + Z.of_nat (S (Z.to_nat attempts)) <=? attempts) with false
    by (symmetry; apply Z.leb_gt; lia).
  reflexivity.
Qed.

(** X1: when the first attempt does not fail, the retry layer is not
    seen: a success, a result with neither response nor failure, or a
    panic of the wrapped client comes back as it is, in the world the
    client left, with no sleep and no second invocation. *)
Theorem FaultTolerance_first_attempt attempts backoff c fuel w o w1 :
  0 <= attempts ->
  c (S fuel) w = Some (o, w1) ->
  (forall res e, o <> Ret (res, Some e)) ->
  FaultTolerance attempts backoff c (S fuel) w = Some (o, w1).
Proof.
  intros Ha Hc Ho. unfold FaultTolerance, ClientFunc.
  cbn [FaultTolerance_loop].
  replace (0 <=? attempts) with true by (symmetry; apply Z.leb_le; lia).
  unfold Do. rewrite Hc.
  destruct o as [[res [e|]]|]; try reflexivity.
  now destruct (Ho res e).
Qed.

Lemma failed_run_clock backoff c fuel :
  (forall fuel' w o w1, c fuel' w = Some (o, w1) -> w_clock w <= w_clock w1) ->
  0 <= backoff ->
  forall m i w cur w' cur',
    failed_run backoff c fuel i w cur m w' cur' ->
    0 <= i -> backoff * (i + Z.of_nat m - 1) <= max_int ->
    backoff * Z.of_nat m * (2 * i + Z.of_nat m - 1)
    <= 2 * (w_clock w' - w_clock w).
Proof.
  intros Hmono Hb m. induction m as [|m IH]; intros i w cur w' cur' Hrun Hi Hmax;
    inversion Hrun as [|? ? ? res e w1 ? ? ? Hc Hrest]; subst.
  - lia.
  - pose proof (Hmono _ _ _ _ Hc) as Hc1.
    assert (Hbi : 0 <= backoff * i <= max_int) by nia.
    specialize (IH _ _ _ _ _ Hrest ltac:(lia)
                  ltac:(replace (i + 1 + Z.of_nat m - 1)
                          with (i + Z.of_nat (S m) - 1) by lia; exact Hmax)).
    rewrite wrap64_id in IH by (unfold min_int, max_int in *; lia).
    cbn [Sleep set_clock emit w_clock] in IH.
    rewrite Z.max_r in IH by lia.
    nia.
Qed.

(** X2: against a client that always fails and never sets the clock
    back, one call through [FaultTolerance attempts backoff] returns a
    failure and has slept through [backoff * (0 + 1 + ... + attempts)]
    at least, as long as the largest sleep fits a [Duration]. *)
Theorem FaultTolerance_backoff_total attempts backoff c fuel w :
  always_fails c ->
  (forall fuel' w0 o w1,
      c fuel' w0 = Some (o, w1) -> w_clock w0 <= w_clock w1) ->
  0 <= attempts < max_int -> 0 <= backoff ->
  backoff * attempts <= max_int ->
  (Z.to_nat attempts + 1 < fuel)%nat ->
  exists res e w',
    FaultTolerance attempts backoff c fuel w = Some (Ret (res, Some e), w') /\
    backoff * attempts * (attempts + 1) <= 2 * (w_clock w' - w_clock w).
Proof.
  intros H Hmono Ha Hb Hmax Hfuel.
  destruct (FaultTolerance_exhausts attempts backoff c fuel w H Ha Hfuel)
    as (res & e & w' & HFT & Hrun).
  exists res, e, w'. split; [exact HFT|].
  pose proof (failed_run_clock backoff c fuel Hmono Hb _ _ _ _ _ _ Hrun
                ltac:(lia)) as Hclock.
  rewrite Nat2Z.inj_succ, Z2Nat.id in Hclock by lia.
  specialize (Hclock ltac:(replace (0 + Z.succ attempts - 1) with attempts
                             by lia; exact Hmax)).
  nia.
Qed.

(** ** Layers under and over the retry loop *)

(** A client that fails in every world of an invariant that its run and
    the sleeps keep. *)
Lemma invariant_run backoff c fuel (Inv : World (Rng := Rng) -> Prop) :
  (forall w, Inv w ->
     exists res e w1,
       c fuel w = Some (Ret (res, Some e), w1) /\
       forall d, Inv (Sleep d w1)) ->
  forall m i w cur,
    Inv w -> exists w' cur', failed_run backoff c fuel i w cur m w' cur'.
Proof.
  intros H m. induction m as [|m IH]; intros i w cur Hw.
  - exists w, cur. constructor.
  - destruct (H w Hw) as (res & e & w1 & Hc & Hinv).
    destruct (IH (i + 1) (Sleep (wrap64 (backoff * i)) w1) (res, Some e)
                (Hinv _)) as (w' & cur' & Hrun).
    exists w', cur'. econstructor; eauto.
Qed.

Lemma FaultTolerance_exhausts_under
    attempts backoff c fuel (Inv : World (Rng := Rng) -> Prop) w :
  (forall w0, Inv w0 ->
     exists res e w1,
       c fuel w0 = Some (Ret (res, Some e), w1) /\
       forall d, Inv (Sleep d w1)) ->
  Inv w ->
  0 <= attempts < max_int -> (Z.to_nat attempts + 1 < fuel)%nat ->
  exists res e w',
    FaultTolerance attempts backoff c fuel w = Some (Ret (res, Some e), w') /\
    failed_run backoff c fuel 0 w (None, None) (S (Z.to_nat attempts))
      w' (res, Some e).
Proof.
  intros H Hw Ha Hfuel.
  destruct (invariant_run backoff c fuel Inv H (S (Z.to_nat attempts)) 0 w
              (None, None) Hw) as (w' & cur' & Hrun).
  destruct (failed_run_last _ _ _ _ _ _ _ _ _ Hrun)
    as (wl & res & e & wl' & _ & Hcur & _).
  subst cur'. exists res, e, w'. split; [|exact Hrun].
  unfold FaultTolerance, ClientFunc.
  replace fuel
    with (S (Z.to_nat attempts) + S (fuel - Z.to_nat attempts - 2))%nat
    at 2 by lia.
  rewrite (failed_run_loop attempts _ _ _ _ _ _ _ _ _ _ Hrun)
    by (unfold min_int, max_int in *; lia).
  rewrite wrap64_id by (unfold min_int, max_int in *; lia).
  cbn [FaultTolerance_loop].
  replace (0 + Z.of_nat (S (Z.to_nat attempts)) <=? attempts) with false
    by (symmetry; apply Z.leb_gt; lia).
  reflexivity.
Qed.

(** A panic at the first attempt ends the loop. *)
Lemma FaultTolerance_panics_at_once attempts backoff c fuel w w1 :
  0 <= attempts -> (0 < fuel)%nat ->
  c fuel w = Some (Panic, w1) ->
  FaultTolerance attempts backoff c fuel w = Some (Panic, w1).
Proof.
  intros Ha Hfuel Hc. unfold FaultTolerance, ClientFunc.
  destruct fuel as [|n]; [lia|]. cbn [FaultTolerance_loop].
  replace (0 <=? attempts) with true by (symmetry; apply Z.leb_le; lia).
  unfold Do. now rewrite Hc.
Qed.

Lemma Hdr_of_map (r : Request) h : HdrRef r = Some h -> Hdr r = h.
Proof. intros H. unfold Hdr. now rewrite H. Qed.

Lemma failed_run_headers name value c0 backoff fuel :
  (forall fuel' w o w1,
      c0 fuel' w = Some (o, w1) -> HdrRef (w_req w1) = HdrRef (w_req w)) ->
  forall m i w cur w' cur',
    failed_run backoff (Header name value c0) fuel i w cur m w' cur' ->
    default [] (Hdr (w_req w') !! CanonicalMIMEHeaderKey name) =
      default [] (Hdr (w_req w) !! CanonicalMIMEHeaderKey name)
        ++ replicate m value /\
    forall k, k <> CanonicalMIMEHeaderKey name ->
      Hdr (w_req w') !! k = Hdr (w_req w) !! k.
Proof.
  intros Hkeep m. induction m as [|m IH]; intros i w cur w' cur' Hrun;
    inversion Hrun as [|? ? ? res e w1 ? ? ? Hc Hrest]; subst.
  - split; [now rewrite app_nil_r | reflexivity].
  - destruct (HdrRef (w_req w)) as [h|] eqn:Hh;
      [|unfold Header, ClientFunc, Do in Hc; rewrite Hh in Hc; discriminate].
    destruct (Header_on_map name value c0 fuel w h Hh) as [Hstep Hadd].
    rewrite Hstep in Hc. apply Hkeep in Hc.
    assert (Hw1 : Hdr (w_req w1) = Header_Add name value (Hdr (w_req w))).
    { rewrite (Hdr_of_map _ _ Hh), <- Hadd. unfold Hdr. now rewrite Hc. }
    destruct (IH _ _ _ _ _ Hrest) as [IH1 IH2].
    cbn [Sleep set_clock emit w_req] in IH1, IH2.
    rewrite Hw1 in IH1, IH2. split.
    + rewrite IH1, Header_Add_lookup, decide_True by reflexivity.
      cbn [default from_option id replicate]. now rewrite <- app_assoc.
    + intros k Hk. rewrite (IH2 k Hk), Header_Add_lookup.
      now rewrite decide_False.
Qed.

(** X3: with [Header] under the retry loop the header is added again on
    every attempt: against a base that always fails and leaves the header
    map alone, one call on a request with a header map adds
    [attempts + 1] copies of the value to the canonical key and touches no
    other key; on a request whose header map is nil the first attempt
    panics in [Header] and the call panics. *)
Theorem Header_accumulates_over_retries name value attempts backoff c0 fuel w :
  always_fails c0 ->
  (forall fuel' w0 o w1,
      c0 fuel' w0 = Some (o, w1) -> HdrRef (w_req w1) = HdrRef (w_req w0)) ->
  0 <= attempts < max_int -> (Z.to_nat attempts + 1 < fuel)%nat ->
  (HdrRef (w_req w) <> None ->
   exists res e w',
     Decorate c0 [Header name value; FaultTolerance attempts backoff] fuel w =
       Some (Ret (res, Some e), w') /\
     default [] (Hdr (w_req w') !! CanonicalMIMEHeaderKey name) =
       default [] (Hdr (w_req w) !! CanonicalMIMEHeaderKey name)
         ++ replicate (S (Z.to_nat attempts)) value /\
     forall k, k <> CanonicalMIMEHeaderKey name ->
       Hdr (w_req w') !! k = Hdr (w_req w) !! k) /\
  (HdrRef (w_req w) = None ->
   Decorate c0 [Header name value; FaultTolerance attempts backoff] fuel w =
     Some (Panic, w)).
Proof.
  intros H Hkeep Ha Hfuel. split.
  - intros Hmap.
    destruct (FaultTolerance_exhausts_under attempts backoff
                (Header name value c0) fuel
                (fun w0 => HdrRef (w_req w0) <> None) w)
      as (res & e & w' & HFT & Hrun); auto.
    { intros w0 Hw0. destruct (HdrRef (w_req w0)) as [h|] eqn:Hh;
        [|congruence].
      destruct (Header_on_map name value c0 fuel w0 h Hh) as [Hstep _].
      destruct (H fuel (set_req (add_header name value) w0))
        as (res & e & w1 & Hc).
      exists res, e, w1. rewrite Hstep. split; [exact Hc|].
      intros d. cbn [Sleep set_clock emit w_req].
      rewrite (Hkeep _ _ _ _ Hc). discriminate. }
    exists res, e, w'. split; [exact HFT|].
    exact (failed_run_headers name value c0 backoff fuel Hkeep
             _ _ _ _ _ _ Hrun).
  - intros Hnil. cbn [Decorate fold_left].
    apply FaultTolerance_panics_at_once; [lia | lia|].
    unfold Header, ClientFunc, Do. now rewrite Hnil.
Qed.

(** X12: [Header] adds and does not replace, so what [Get] reads for the
    name afterwards is the value given only when the key had no value; a
    value that was there before is still the one [Get] returns.  On a nil
    header map [Header] panics and nothing is added. *)
Theorem Header_then_Get name value c fuel w :
  (HdrRef (w_req w) <> None ->
   exists w1,
     Header name value c fuel w = c fuel w1 /\
     Header_Get name (Hdr (w_req w1)) =
     match Hdr (w_req w) !! CanonicalMIMEHeaderKey name with
     | Some (v :: _) => v
     | _ => value
     end) /\
  (HdrRef (w_req w) = None ->
   Header name value c fuel w = Some (Panic, w)).
Proof.
  split.
  - intros Hmap. destruct (HdrRef (w_req w)) as [h|] eqn:Hh; [|congruence].
    destruct (Header_on_map name value c fuel w h Hh) as [Hstep Hadd].
    eexists. split; [exact Hstep|].
    rewrite Hadd, (Hdr_of_map _ _ Hh). unfold Header_Get.
    rewrite Header_Add_lookup, decide_True by reflexivity.
    destruct (h !! CanonicalMIMEHeaderKey name) as [[|v vs]|]; reflexivity.
  - intros Hnil. unfold Header, ClientFunc, Do. now rewrite Hnil.
Qed.

Lemma foldr_add_shift (l : list Z) (a : Z) :
  foldr Z.add a l = foldr Z.add 0 l + a.
Proof. induction l as [|x l IH]; cbn; [lia | rewrite IH; lia]. Qed.

Lemma counter_value_emit requests e w :
  counter_value requests (emit e w) =
  counter_value requests w + default 0 (add_of requests e).
Proof.
  unfold counter_value, emit. cbn [w_trace].
  rewrite omap_app, foldr_app, foldr_add_shift. f_equal.
  cbn. destruct (add_of requests e); cbn; lia.
Qed.

Lemma observations_emit latency e w :
  observations latency (emit e w) =
  observations latency w ++ option_list (observe_of latency e).
Proof.
  unfold observations, emit. cbn [w_trace]. rewrite omap_app.
  f_equal; cbn; now destruct (observe_of latency e).
Qed.

Lemma failed_run_metrics requests latency c0 backoff fuel :
  (forall fuel' w o w1,
      c0 fuel' w = Some (o, w1) ->
      counter_value requests w1 = counter_value requests w /\
      observations latency w1 = observations latency w) ->
  forall m i w cur w' cur',
    failed_run backoff (Instrumentation requests latency c0) fuel
      i w cur m w' cur' ->
    counter_value requests w' = counter_value requests w + Z.of_nat m /\
    length (observations latency w') =
      (length (observations latency w) + m)%nat.
Proof.
  intros Hquiet m. induction m as [|m IH]; intros i w cur w' cur' Hrun;
    inversion Hrun as [|? ? ? res e w1 ? ? ? Hc Hrest]; subst.
  - split; lia.
  - unfold Instrumentation, ClientFunc, Do in Hc.
    destruct (c0 fuel w) as [[o w0]|] eqn:Hc0; [|discriminate].
    inversion Hc; subst. destruct (Hquiet _ _ _ _ Hc0) as [Hq1 Hq2].
    destruct (IH _ _ _ _ _ Hrest) as [IH1 IH2].
    unfold Sleep, set_clock in IH1, IH2.
    assert (Hcv : forall t w2,
               counter_value requests
                 (mkWorld (w_req w2) (w_trace w2) t (w_cells w2) (w_rngs w2))
               = counter_value requests w2) by reflexivity.
    assert (Hob : forall t w2,
               observations latency
                 (mkWorld (w_req w2) (w_trace w2) t (w_cells w2) (w_rngs w2))
               = observations latency w2) by reflexivity.
    rewrite Hcv in IH1. rewrite Hob in IH2.
    unfold Add, Observe in IH1, IH2.
    rewrite !counter_value_emit in IH1. rewrite !observations_emit in IH2.
    cbn [add_of observe_of option_list default] in IH1, IH2.
    rewrite String.eqb_refl in IH1, IH2.
    cbn [option_list default] in IH1, IH2.
    rewrite !length_app in IH2. cbn [length] in IH2.
    rewrite Hq1 in IH1. rewrite Hq2 in IH2.
    cbn [id] in IH1. simpl length in IH2. split; lia.
Qed.

(** X5: with [Instrumentation] under the retry loop every attempt is
    measured: against a base that always fails and does not touch the two
    metrics, one call adds [attempts + 1] to the counter and
    [attempts + 1] observations to the histogram. *)
Theorem Instrumentation_once_per_attempt
    requests latency attempts backoff c0 fuel w :
  always_fails c0 ->
  (forall fuel' w0 o w1,
      c0 fuel' w0 = Some (o, w1) ->
      counter_value requests w1 = counter_value requests w0 /\
      observations latency w1 = observations latency w0) ->
  0 <= attempts < max_int -> (Z.to_nat attempts + 1 < fuel)%nat ->
  exists res e w',
    Decorate c0 [Instrumentation requests latency;
                 FaultTolerance attempts backoff] fuel w =
      Some (Ret (res, Some e), w') /\
    counter_value requests w' = counter_value requests w + (attempts + 1) /\
    length (observations latency w') =
      (length (observations latency w) + S (Z.to_nat attempts))%nat.
Proof.
  intros H Hquiet Ha Hfuel.
  assert (H' : always_fails (Instrumentation requests latency c0)).
  { intros fuel' w0. destruct (H fuel' w0) as (res & e & w1 & Hc).
    unfold Instrumentation, ClientFunc, Do. rewrite Hc. eauto. }
  destruct (FaultTolerance_exhausts attempts backoff _ fuel w H' Ha Hfuel)
    as (res & e & w' & HFT & Hrun).
  exists res, e, w'. split; [exact HFT|].
  destruct (failed_run_metrics requests latency c0 backoff fuel Hquiet
              _ _ _ _ _ _ Hrun) as [H1 H2].
  split; [lia | exact H2].
Qed.

(** X6: with [Instrumentation] over the retry loop one call is one
    measurement, whatever the number of attempts, and the latency it
    observes covers the sleeps of the loop. *)
Theorem Instrumentation_covers_backoff
    requests latency attempts backoff c0 fuel w :
  always_fails c0 ->
  (forall fuel' w0 o w1,
      c0 fuel' w0 = Some (o, w1) -> w_clock w0 <= w_clock w1) ->
  0 <= attempts < max_int -> 0 <= backoff ->
  backoff * attempts <= max_int ->
  backoff * attempts * (attempts + 1) <= 2 * max_int ->
  (Z.to_nat attempts + 1 < fuel)%nat ->
  exists res e w1 v,
    FaultTolerance attempts backoff c0 fuel w =
      Some (Ret (res, Some e), w1) /\
    Decorate c0 [FaultTolerance attempts backoff;
                 Instrumentation requests latency] fuel w =
      Some (Ret (res, Some e), Add requests 1 (Observe latency v w1)) /\
    backoff * attempts * (attempts + 1) <= 2 * v.
Proof.
  intros H Hmono Ha Hb Hmax Hsum Hfuel.
  destruct (FaultTolerance_backoff_total attempts backoff c0 fuel w
              H Hmono Ha Hb Hmax Hfuel) as (res & e & w1 & HFT & Hclock).
  exists res, e, w1, (Since (w_clock w) w1). split; [exact HFT|]. split.
  - cbn [Decorate fold_left]. unfold Instrumentation at 1, ClientFunc, Do.
    now rewrite HFT.
  - unfold Since, sat64, min_int, max_int in *. lia.
Qed.

(** ** More on the directors *)

(** X7: over a list of backends that is not empty a round-robin director
    never panics, whatever the value of its cell (also when it wraps): it
    sets the host to one of the backends, stores the incremented value in
    its cell, and leaves the rest of the request, the trace, the clock and
    the generators as they were. *)
Theorem RoundRobin_director_selects loc backends w v :
  backends <> [] ->
  w_cells w !! loc = Some v ->
  exists b w1,
    RoundRobin_director loc backends w = (Ret tt, w1) /\
    b ∈ backends /\
    w_req w1 = set_host b (w_req w) /\
    w_cells w1 = <[loc := wrapU64 (v + 1)]> (w_cells w) /\
    w_trace w1 = w_trace w /\ w_clock w1 = w_clock w /\
    w_rngs w1 = w_rngs w.
Proof.
  intros Hne Hv.
  rewrite (RoundRobin_director_step _ _ _ _ Hne Hv).
  eexists _, _. split; [reflexivity|]. split; [|repeat split].
  assert (Hlen : 0 < len backends).
  { unfold len. destruct backends; [congruence | cbn; lia]. }
  pose proof (Z.mod_pos_bound (wrapU64 (v + 1)) (len backends) Hlen) as Hb.
  destruct (lookup_lt_is_Some_2 backends
              (Z.to_nat (wrapU64 (v + 1) mod len backends))) as [b Hl].
  { unfold len in *. lia. }
  rewrite (nth_lookup_Some _ _ EmptyString _ Hl).
  exact (list_elem_of_lookup_2 _ _ _ Hl).
Qed.

(** The positions taken by [L] increments in a row are all the
    positions. *)
Lemma picks_Permutation (v : Z) (L : nat) :
  (0 < L)%nat ->
  Permutation
    (map (fun j => Z.to_nat ((v + Z.of_nat j) mod Z.of_nat L)) (seq 1 L))
    (seq 0 L).
Proof.
  intros HL. apply NoDup_Permutation.
  - apply (NoDup_fmap_2_strong
             (fun j => Z.to_nat ((v + Z.of_nat j) mod Z.of_nat L)) (seq 1 L));
      [|apply NoDup_seq].
    intros j j' Hj Hj' Heq. apply elem_of_seq in Hj, Hj'.
    pose proof (Z.mod_pos_bound (v + Z.of_nat j) (Z.of_nat L) ltac:(lia)).
    pose proof (Z.mod_pos_bound (v + Z.of_nat j') (Z.of_nat L) ltac:(lia)).
    apply Z2Nat.inj in Heq; [|lia|lia].
    pose proof (Z.div_mod (v + Z.of_nat j) (Z.of_nat L) ltac:(lia)) as Hd.
    pose proof (Z.div_mod (v + Z.of_nat j') (Z.of_nat L) ltac:(lia)) as Hd'.
    rewrite Heq in Hd.
    set (q := (v + Z.of_nat j) / Z.of_nat L
              - (v + Z.of_nat j') / Z.of_nat L).
    assert (Hq : Z.of_nat j - Z.of_nat j' = Z.of_nat L * q) by (subst q; lia).
    assert (q = 0) by nia.
    lia.
  - apply NoDup_seq.
  - intros x. rewrite !list_elem_of_In, in_map_iff, in_seq. split.
    + intros (j & <- & _).
      pose proof (Z.mod_pos_bound (v + Z.of_nat j) (Z.of_nat L) ltac:(lia)).
      lia.
    + intros Hx.
      pose proof (Z.mod_pos_bound (Z.of_nat x - v - 1) (Z.of_nat L)
                    ltac:(lia)) as Hb.
      exists (S (Z.to_nat ((Z.of_nat x - v - 1) mod Z.of_nat L))). split.
      * rewrite Nat2Z.inj_succ, Z2Nat.id by lia.
        replace (v + Z.succ ((Z.of_nat x - v - 1) mod Z.of_nat L))
          with (v + 1 + (Z.of_nat x - v - 1) mod Z.of_nat L) by lia.
        rewrite Z.add_mod_idemp_r by lia.
        replace (v + 1 + (Z.of_nat x - v - 1)) with (Z.of_nat x) by lia.
        rewrite Z.mod_small by lia. apply Nat2Z.id.
      * apply in_seq. lia.
Qed.

Lemma map_nth_seq_all (l : list string) :
  map (fun p => nth p l EmptyString) (seq 0 (length l)) = l.
Proof.
  apply (nth_ext _ _ EmptyString EmptyString).
  - now rewrite length_map, length_seq.
  - intros n Hn. rewrite length_map, length_seq in Hn.
    rewrite (nth_indep _ _ (nth 0 l EmptyString))
      by now rewrite length_map, length_seq.
    change (nth 0 l EmptyString)
      with ((fun p => nth p l EmptyString) 0%nat).
    now rewrite map_nth, seq_nth.
Qed.

(** X8: as long as the cell does not wrap, as many invocations in a row
    as there are backends select every backend exactly once: the hosts
    selected are a permutation of the list. *)
Theorem RoundRobin_full_cycle loc backends w v :
  backends <> [] ->
  w_cells w !! loc = Some v ->
  0 <= v -> v + len backends < 2 ^ 64 ->
  Permutation
    (hosts_selected (RoundRobin_director loc backends) (length backends) w)
    backends.
Proof.
  intros Hne Hv H0 Hmax.
  rewrite (hosts_selected_RoundRobin loc backends (length backends) Hne w v
             Hv H0 Hmax).
  rewrite <- (map_map (fun j => Z.to_nat ((v + Z.of_nat j) mod len backends))
                (fun p => nth p backends EmptyString)).
  unfold len. etransitivity.
  - apply Permutation_map, picks_Permutation.
    destruct backends; [congruence | cbn; lia].
  - now rewrite map_nth_seq_all.
Qed.

Lemma hosts_selected_cell loc backends n :
  backends <> [] ->
  forall w (wb : World (Rng := Rng)) v,
    w_cells w !! loc = Some v -> w_cells wb !! loc = Some v ->
    hosts_selected (RoundRobin_director loc backends) n w =
    hosts_selected (RoundRobin_director loc backends) n wb.
Proof.
  intros Hne. induction n as [|n IH]; intros w wb v Hw Hwb; [reflexivity|].
  cbn [hosts_selected].
  rewrite (RoundRobin_director_step _ _ _ _ Hne Hw),
    (RoundRobin_director_step _ _ _ _ Hne Hwb).
  cbn [snd]. f_equal.
  apply (IH _ _ (wrapU64 (v + 1))); cbn [set_req set_cells w_cells];
    apply list_lookup_insert_eq; eapply lookup_lt_Some; eauto.
Qed.

Lemma RoundRobin_director_other_cell loc backends w loc' :
  loc' <> loc ->
  w_cells (snd (RoundRobin_director loc backends w)) !! loc' =
  w_cells w !! loc'.
Proof.
  intros Hloc. unfold RoundRobin_director.
  destruct (0 <? len backends); [|reflexivity].
  destruct (w_cells w !! loc) as [v|]; [|reflexivity]. cbn zeta.
  destruct (backends !! Z.to_nat (wrapU64 (v + 1) mod len backends));
    cbn [snd set_req set_cells w_cells];
    now apply list_lookup_insert_ne.
Qed.

Lemma invoke_n_other_cell loc backends loc' n :
  loc' <> loc ->
  forall w,
    w_cells (invoke_n (RoundRobin_director loc backends) n w) !! loc' =
    w_cells w !! loc'.
Proof.
  intros Hloc. induction n as [|n IH]; intros w; [reflexivity|].
  cbn [invoke_n]. rewrite IH. now apply RoundRobin_director_other_cell.
Qed.

(** X9: every director that [RoundRobin] builds has a counter of its own:
    of two directors built one after the other, invoking one any number
    of times does not change what the other selects next. *)
Theorem RoundRobin_directors_independent r1 bs1 r2 bs2 w0 n k :
  let d1 := fst (RoundRobin r1 bs1 w0) in
  let w1 := snd (RoundRobin r1 bs1 w0) in
  let d2 := fst (RoundRobin r2 bs2 w1) in
  let w2 := snd (RoundRobin r2 bs2 w1) in
  (bs2 <> [] ->
   hosts_selected d2 k (invoke_n d1 n w2) = hosts_selected d2 k w2) /\
  (bs1 <> [] ->
   hosts_selected d1 k (invoke_n d2 n w2) = hosts_selected d1 k w2).
Proof.
  intros d1 w1 d2 w2.
  assert (Hlen : length (w_cells w1) = S (length (w_cells w0))).
  { subst w1. cbn [RoundRobin snd set_cells w_cells].
    rewrite length_app. cbn. lia. }
  assert (H1 : w_cells w2 !! length (w_cells w0) = Some r1).
  { subst w2 w1. cbn [RoundRobin snd set_cells w_cells].
    rewrite lookup_app_l by (rewrite length_app; cbn; lia).
    rewrite lookup_app_r by lia. now rewrite Nat.sub_diag. }
  assert (H2 : w_cells w2 !! length (w_cells w1) = Some r2).
  { subst w2. cbn [RoundRobin snd set_cells w_cells].
    rewrite lookup_app_r by lia. now rewrite Nat.sub_diag. }
  change d1
    with (RoundRobin_director (Rng := Rng) (length (w_cells w0)) bs1).
  change d2
    with (RoundRobin_director (Rng := Rng) (length (w_cells w1)) bs2).
  split; intros Hne.
  - apply (hosts_selected_cell _ _ _ Hne _ _ r2); [|exact H2].
    rewrite invoke_n_other_cell by lia. exact H2.
  - apply (hosts_selected_cell _ _ _ Hne _ _ r1); [|exact H1].
    rewrite invoke_n_other_cell by lia. exact H1.
Qed.

Lemma Random_director_step loc backends w g :
  Intn_in_range Intn ->
  backends <> [] ->
  w_rngs w !! loc = Some g ->
  Random_director Intn loc backends w =
  (Ret tt,
   set_req (set_host (nth (Z.to_nat (fst (Intn g (len backends))))
                        backends EmptyString))
     (set_rngs (<[loc := snd (Intn g (len backends))]> (w_rngs w)) w)) /\
  (Z.to_nat (fst (Intn g (len backends))) < length backends)%nat.
Proof.
  intros Hrange Hne Hg. unfold Random_director. rewrite Hg.
  assert (Hlen : 0 < len backends).
  { unfold len. destruct backends; [congruence | cbn; lia]. }
  replace (0 <? len backends) with true by (symmetry; apply Z.ltb_lt; lia).
  pose proof (Hrange g (len backends) Hlen) as Hk.
  destruct (Intn g (len backends)) as [k g'] eqn:HI. cbn [fst snd] in *.
  replace (k <? 0) with false by (symmetry; apply Z.ltb_ge; lia).
  assert (Hlt : (Z.to_nat k < length backends)%nat) by (unfold len in *; lia).
  destruct (lookup_lt_is_Some_2 backends (Z.to_nat k) Hlt) as [b Hl].
  rewrite Hl, (nth_lookup_Some _ _ EmptyString _ Hl). split; [reflexivity|].
  exact Hlt.
Qed.

(** X10: with a generator that keeps the contract of [Intn], a random
    director over a list of backends that is not empty never panics: it
    sets the host to one of the backends, advances its generator, and
    leaves the rest of the request, the trace, the clock and the cells as
    they were. *)
Theorem Random_director_selects loc backends w g :
  Intn_in_range Intn ->
  backends <> [] ->
  w_rngs w !! loc = Some g ->
  exists b w1,
    Random_director Intn loc backends w = (Ret tt, w1) /\
    b ∈ backends /\
    w_req w1 = set_host b (w_req w) /\
    w_rngs w1 = <[loc := snd (Intn g (len backends))]> (w_rngs w) /\
    w_trace w1 = w_trace w /\ w_clock w1 = w_clock w /\
    w_cells w1 = w_cells w.
Proof.
  intros Hrange Hne Hg.
  destruct (Random_director_step loc backends w g Hrange Hne Hg)
    as [Hstep Hlt].
  rewrite Hstep. eexists _, _. split; [reflexivity|].
  split; [|repeat split].
  destruct (lookup_lt_is_Some_2 backends _ Hlt) as [b Hl].
  rewrite (nth_lookup_Some _ _ EmptyString _ Hl).
  exact (list_elem_of_lookup_2 _ _ _ Hl).
Qed.

Lemma hosts_selected_generator backends n :
  Intn_in_range Intn ->
  backends <> [] ->
  forall la lb w (wb : World (Rng := Rng)) g,
    w_rngs w !! la = Some g -> w_rngs wb !! lb = Some g ->
    hosts_selected (Random_director Intn la backends) n w =
    hosts_selected (Random_director Intn lb backends) n wb.
Proof.
  intros Hrange Hne. induction n as [|n IH]; intros la lb w wb g Hw Hwb;
    [reflexivity|].
  cbn [hosts_selected].
  rewrite (proj1 (Random_director_step la backends w g Hrange Hne Hw)),
    (proj1 (Random_director_step lb backends wb g Hrange Hne Hwb)).
  cbn [snd]. f_equal.
  apply (IH _ _ _ _ (snd (Intn g (len backends))));
    cbn [set_req set_rngs w_rngs];
    apply list_lookup_insert_eq; eapply lookup_lt_Some; eauto.
Qed.

(** X11: the hosts a random director selects depend on the seed and the
    backends only: two directors built with the same seed over the same
    backends, in whatever worlds, select the same hosts in [n]
    invocations. *)
Theorem Random_same_seed seed backends w (wb : World (Rng := Rng)) n :
  Intn_in_range Intn ->
  backends <> [] ->
  hosts_selected (fst (Random NewSource Intn seed backends w)) n
    (snd (Random NewSource Intn seed backends w)) =
  hosts_selected (fst (Random NewSource Intn seed backends wb)) n
    (snd (Random NewSource Intn seed backends wb)).
Proof.
  intros Hrange Hne. cbn [Random fst snd].
  apply (hosts_selected_generator backends n Hrange Hne _ _ _ _
           (NewSource seed));
    cbn [set_rngs w_rngs]; rewrite lookup_app_r by lia;
    now rewrite Nat.sub_diag.
Qed.

(** ** Load balancing under the retry loop *)

Lemma marks_emit e w : marks (emit e w) = marks w ++ option_list (mark_of e).
Proof.
  unfold marks, emit. cbn [w_trace]. rewrite omap_app.
  f_equal; cbn; now destruct (mark_of e).
Qed.

Lemma failed_run_rotation loc backends result backoff fuel :
  backends <> [] ->
  forall m i w cur w' cur' v,
    failed_run backoff
      (LoadBalancing (RoundRobin_director loc backends) (HostProbe result))
      fuel i w cur m w' cur' ->
    w_cells w !! loc = Some v ->
    marks w' =
    marks w ++ hosts_selected (RoundRobin_director loc backends) m w.
Proof.
  intros Hne m. induction m as [|m IH]; intros i w cur w' cur' v Hrun Hv;
    inversion Hrun as [|? ? ? res e w1 ? ? ? Hc Hrest]; subst.
  - cbn. now rewrite app_nil_r.
  - unfold LoadBalancing, ClientFunc, Do in Hc.
    rewrite (RoundRobin_director_step _ _ _ _ Hne Hv) in Hc.
    unfold HostProbe in Hc. inversion Hc; subst. clear Hc.
    cbn [hosts_selected]. rewrite (RoundRobin_director_step _ _ _ _ Hne Hv).
    cbn [snd].
    set (wd := set_req _ (set_cells _ w)) in *.
    assert (Hcell : w_cells wd !! loc = Some (wrapU64 (v + 1))).
    { subst wd. cbn [set_req set_cells w_cells].
      apply list_lookup_insert_eq. eapply lookup_lt_Some; eauto. }
    rewrite (IH _ _ _ _ _ (wrapU64 (v + 1)) Hrest) by exact Hcell.
    rewrite (hosts_selected_cell loc backends m Hne _ wd (wrapU64 (v + 1)))
      by exact Hcell.
    unfold Sleep, set_clock.
    change (marks (mkWorld ?r ?t ?c ?cs ?gs)) with (omap mark_of t).
    cbn [emit w_trace]. rewrite !omap_app. cbn [omap mark_of].
    rewrite app_nil_r, <- app_assoc. reflexivity.
Qed.

Lemma rotation_run loc backends res err backoff fuel :
  backends <> [] ->
  forall m i w cur v,
    w_cells w !! loc = Some v -> m <> 0%nat ->
    exists w',
      failed_run backoff
        (LoadBalancing (RoundRobin_director loc backends)
           (HostProbe (res, Some err)))
        fuel i w cur m w' (res, Some err).
Proof.
  intros Hne m. induction m as [|m IH]; intros i w cur v Hv Hm; [congruence|].
  set (w1 := emit (EvMark (Host (Url (w_req
               (snd (RoundRobin_director loc backends w))))))
               (snd (RoundRobin_director loc backends w))).
  assert (Hc : LoadBalancing (RoundRobin_director loc backends)
                 (HostProbe (res, Some err)) fuel w =
               Some (Ret (res, Some err), w1)).
  { unfold LoadBalancing, ClientFunc, Do. subst w1.
    rewrite (RoundRobin_director_step _ _ _ _ Hne Hv). reflexivity. }
  assert (Hcell : w_cells (Sleep (wrap64 (backoff * i)) w1) !! loc =
                  Some (wrapU64 (v + 1))).
  { subst w1. rewrite (RoundRobin_director_step _ _ _ _ Hne Hv).
    cbn [Sleep set_clock emit set_req set_cells w_cells snd].
    apply list_lookup_insert_eq. eapply lookup_lt_Some; eauto. }
  destruct m as [|m].
  - exists (Sleep (wrap64 (backoff * i)) w1).
    eapply failed_cons; [exact Hc | constructor].
  - destruct (IH (i + 1) (Sleep (wrap64 (backoff * i)) w1) (res, Some err)
                (wrapU64 (v + 1)) Hcell ltac:(congruence)) as (w' & Hr).
    exists w'. eapply failed_cons; [exact Hc | exact Hr].
Qed.

(** X4: with [LoadBalancing] over a round-robin director under the retry
    loop every attempt goes to the next backend: against a base that
    fails, the hosts it is sent to in one call are the hosts that
    [attempts + 1] invocations of the director select. *)
Theorem LoadBalancing_rotates_over_retries
    loc backends res err attempts backoff fuel w v :
  backends <> [] ->
  w_cells w !! loc = Some v ->
  0 <= attempts < max_int -> (Z.to_nat attempts + 1 < fuel)%nat ->
  exists w',
    Decorate (HostProbe (res, Some err))
      [LoadBalancing (RoundRobin_director loc backends);
       FaultTolerance attempts backoff] fuel w =
      Some (Ret (res, Some err), w') /\
    marks w' =
    marks w ++ hosts_selected (RoundRobin_director loc backends)
                 (S (Z.to_nat attempts)) w.
Proof.
  intros Hne Hv Ha Hfuel.
  destruct (rotation_run loc backends res err backoff fuel Hne
              (S (Z.to_nat attempts)) 0 w (None, None) v Hv ltac:(lia))
    as (w' & Hr).
  exists w'. split.
  - cbn [Decorate fold_left]. unfold FaultTolerance, ClientFunc.
    replace fuel
      with (S (Z.to_nat attempts) + S (fuel - Z.to_nat attempts - 2))%nat
      at 2 by lia.
    rewrite (failed_run_loop attempts _ _ _ _ _ _ _ _ _ _ Hr)
      by (unfold min_int, max_int in *; lia).
    rewrite wrap64_id by (unfold min_int, max_int in *; lia).
    cbn [FaultTolerance_loop].
    replace (0 + Z.of_nat (S (Z.to_nat attempts)) <=? attempts) with false
      by (symmetry; apply Z.leb_gt; lia).
    reflexivity.
  - exact (failed_run_rotation loc backends _ backoff fuel Hne _ _ _ _ _ _ v
             Hr Hv).
Qed.

(** ** Pipelines in two steps *)

(** X13: decorating in two steps is decorating once with the two lists
    in a row, and a pipeline of one transform is that transform. *)
Theorem Decorate_app c ds1 ds2 :
  Decorate (Decorate c ds1) ds2 = Decorate c (ds1 ++ ds2) /\
  forall T, Decorate c [T] = T c.
Proof.
  split; [|reflexivity]. unfold Decorate. now rewrite fold_left_app.
Qed.

(** ** The pipeline of [decoratorMain] *)

(** One attempt through the four layers under the retry loop, in the
    order of [decoratorMain], against a base that fails: the record is
    written before the director runs, then the host is set, the header
    added, the base invoked and the metrics recorded. *)
Lemma pipeline_attempt
    loc backends token l requests latency res err fuel w v :
  backends <> [] ->
  w_cells w !! loc = Some v ->
  HdrRef (w_req w) <> None ->
  exists w1 x,
    Decorate (HostProbe (res, Some err))
      [Authorization token;
       LoadBalancing (RoundRobin_director loc backends);
       Logging UserAgent_fm l;
       Instrumentation requests latency] fuel w =
      Some (Ret (res, Some err), w1) /\
    w_trace w1 =
      w_trace w
        ++ [EvLog l (log_record UserAgent_fm (w_req w));
            EvMark (Host (Url (w_req
                      (snd (RoundRobin_director loc backends w)))));
            EvObserve latency x; EvAdd requests 1] /\
    w_req w1 =
      add_header "Authorization" token
        (w_req (snd (RoundRobin_director loc backends w))) /\
    w_cells w1 = <[loc := wrapU64 (v + 1)]> (w_cells w) /\
    w_clock w1 = w_clock w.
Proof.
  intros Hne Hv Hmap.
  destruct (HdrRef (w_req w)) as [h|] eqn:Hh; [clear Hmap | congruence].
  set (wl := emit (EvLog l (log_record UserAgent_fm (w_req w))) w).
  assert (Hvl : w_cells wl !! loc = Some v) by exact Hv.
  pose proof (RoundRobin_director_step loc backends wl v Hne Hvl) as Hstep.
  rewrite (RoundRobin_director_step loc backends w v Hne Hv). cbn [snd].
  cbn [Decorate fold_left].
  unfold Instrumentation, Logging, LoadBalancing, Authorization, Header,
    HostProbe, ClientFunc, Do, Printf.
  fold (log_record UserAgent_fm (w_req w)). fold wl. rewrite Hstep.
  cbn [set_req set_cells set_host w_req HdrRef emit wl]. rewrite Hh.
  eexists _, _. split; [reflexivity|].
  cbn [Add Observe emit set_req set_cells add_header set_host
         w_trace w_req w_cells w_clock wl Url Host].
  split; [now rewrite <- !app_assoc|]. repeat split.
Qed.

Lemma map_seq_succ {A : Type} (f : nat -> A) (m : nat) :
  map f (seq 0 (S m)) = f 0%nat :: map (fun j => f (S j)) (seq 0 m).
Proof. cbn [seq map]. now rewrite <- seq_shift, map_map. Qed.

Lemma failed_run_pipeline
    loc backends token l requests latency res err backoff fuel :
  backends <> [] ->
  forall m i w cur w' cur' v,
    failed_run backoff
      (Decorate (HostProbe (res, Some err))
         [Authorization token;
          LoadBalancing (RoundRobin_director loc backends);
          Logging UserAgent_fm l;
          Instrumentation requests latency])
      fuel i w cur m w' cur' ->
    w_cells w !! loc = Some v ->
    HdrRef (w_req w) <> None ->
    marks w' =
      marks w ++ hosts_selected (RoundRobin_director loc backends) m w /\
    records l w' =
      records l w
        ++ map (fun h => log_record UserAgent_fm (set_host h (w_req w)))
             (take m (Host (Url (w_req w))
                      :: hosts_selected (RoundRobin_director loc backends)
                           m w)) /\
    sleeps w' =
      sleeps w
        ++ map (fun j => wrap64 (backoff * (i + Z.of_nat j))) (seq 0 m) /\
    counter_value requests w' = counter_value requests w + Z.of_nat m /\
    default [] (Hdr (w_req w') !! CanonicalMIMEHeaderKey "Authorization") =
      default [] (Hdr (w_req w) !! CanonicalMIMEHeaderKey "Authorization")
        ++ replicate m token.
Proof.
  intros Hne m. induction m as [|m IH]; intros i w cur w' cur' v Hrun Hv Hmap;
    inversion Hrun as [|? ? ? res' e w1 ? ? ? Hc Hrest]; subst.
  - cbn [hosts_selected take map seq replicate]. rewrite !app_nil_r.
    repeat split. lia.
  - destruct (pipeline_attempt loc backends token l requests latency res err
                fuel w v Hne Hv Hmap)
      as (w1' & x & Hc' & Htr & Hreq & Hcells & _).
    rewrite Hc' in Hc. inversion Hc; subst w1' res' e. clear Hc.
    set (dir := RoundRobin_director loc backends) in *.
    set (wd := snd (dir w)) in *.
    set (h := Host (Url (w_req wd))) in *.
    set (wn := Sleep (wrap64 (backoff * i)) w1) in *.
    assert (Hcelln : w_cells wn !! loc = Some (wrapU64 (v + 1))).
    { subst wn. cbn [Sleep set_clock emit w_cells]. rewrite Hcells.
      apply list_lookup_insert_eq. eapply lookup_lt_Some; eauto. }
    assert (Hcelld : w_cells wd !! loc = Some (wrapU64 (v + 1))).
    { subst wd dir. rewrite (RoundRobin_director_step _ _ _ _ Hne Hv).
      cbn [snd set_req set_cells w_cells].
      apply list_lookup_insert_eq. eapply lookup_lt_Some; eauto. }
    assert (Htrn : w_trace wn =
                   w_trace w
                     ++ [EvLog l (log_record UserAgent_fm (w_req w));
                         EvMark h; EvObserve latency x; EvAdd requests 1;
                         EvSleep (wrap64 (backoff * i))]).
    { subst wn. cbn [Sleep set_clock emit w_trace]. rewrite Htr.
      now rewrite <- app_assoc. }
    assert (Hreqn : w_req wn = add_header "Authorization" token (w_req wd))
      by exact Hreq.
    assert (Hwd : w_req wd = set_host h (w_req w)).
    { subst h wd dir. rewrite (RoundRobin_director_step _ _ _ _ Hne Hv).
      reflexivity. }
    assert (Hmapn : HdrRef (w_req wn) <> None)
      by (rewrite Hreqn; discriminate).
    destruct (IH _ _ _ _ _ _ Hrest Hcelln Hmapn) as (I1 & I2 & I3 & I4 & I5).
    pose proof (hosts_selected_cell loc backends m Hne wn wd _ Hcelln Hcelld)
      as Hhs.
    fold dir in Hhs. rewrite Hhs in I1, I2.
    change (hosts_selected dir (S m) w) with (h :: hosts_selected dir m wd).
    unfold marks, records, sleeps, counter_value in *.
    rewrite Htrn in I1, I2, I3, I4.
    rewrite omap_app in I1. rewrite omap_app in I2.
    rewrite omap_app in I3. rewrite omap_app in I4.
    cbn [omap list_omap mark_of log_of sleep_of add_of] in I1, I2, I3, I4.
    rewrite !String.eqb_refl in I2, I4.
    rewrite Hreqn, Hwd in I2, I5.
    cbn [add_header set_host Url Host] in I2.
    change (Hdr (add_header "Authorization" token (set_host h (w_req w))))
      with (Header_Add "Authorization" token (Hdr (w_req w))) in I5.
    rewrite Header_Add_lookup, decide_True in I5 by reflexivity.
    cbn [default from_option id] in I5.
    repeat split.
    + rewrite I1, <- app_assoc. reflexivity.
    + rewrite I2, <- app_assoc. reflexivity.
    + rewrite I3, <- app_assoc, map_seq_succ.
      cbn [app]. rewrite Z.add_0_r. do 2 f_equal.
      apply map_ext. intros j. do 2 f_equal. lia.
    + rewrite I4, foldr_app. cbn [foldr].
      rewrite (foldr_add_shift _ (1 + 0)). lia.
    + rewrite I5, <- app_assoc. reflexivity.
Qed.

Lemma FaultTolerance_of_run attempts backoff c fuel w res e w' :
  failed_run backoff c fuel 0 w (None, None) (S (Z.to_nat attempts))
    w' (res, Some e) ->
  0 <= attempts < max_int -> (Z.to_nat attempts + 1 < fuel)%nat ->
  FaultTolerance attempts backoff c fuel w = Some (Ret (res, Some e), w').
Proof.
  intros Hrun Ha Hfuel. unfold FaultTolerance, ClientFunc.
  replace fuel
    with (S (Z.to_nat attempts) + S (fuel - Z.to_nat attempts - 2))%nat
    at 2 by lia.
  rewrite (failed_run_loop attempts _ _ _ _ _ _ _ _ _ _ Hrun)
    by (unfold min_int, max_int in *; lia).
  rewrite wrap64_id by (unfold min_int, max_int in *; lia).
  cbn [FaultTolerance_loop].
  replace (0 + Z.of_nat (S (Z.to_nat attempts)) <=? attempts) with false
    by (symmetry; apply Z.leb_gt; lia).
  reflexivity.
Qed.

Lemma pipeline_run
    loc backends token l requests latency res err backoff fuel :
  backends <> [] ->
  forall m i w cur v,
    w_cells w !! loc = Some v -> HdrRef (w_req w) <> None -> m <> 0%nat ->
    exists w',
      failed_run backoff
        (Decorate (HostProbe (res, Some err))
           [Authorization token;
            LoadBalancing (RoundRobin_director loc backends);
            Logging UserAgent_fm l;
            Instrumentation requests latency])
        fuel i w cur m w' (res, Some err).
Proof.
  intros Hne m. induction m as [|m IH]; intros i w cur v Hv Hmap Hm;
    [congruence|].
  destruct (pipeline_attempt loc backends token l requests latency res err
              fuel w v Hne Hv Hmap) as (w1 & x & Hc & _ & Hreq & Hcells & _).
  assert (Hmapn : HdrRef (w_req (Sleep (wrap64 (backoff * i)) w1)) <> None).
  { cbn [Sleep set_clock emit w_req]. rewrite Hreq. discriminate. }
  assert (Hcell : w_cells (Sleep (wrap64 (backoff * i)) w1) !! loc =
                  Some (wrapU64 (v + 1))).
  { cbn [Sleep set_clock emit w_cells]. rewrite Hcells.
    apply list_lookup_insert_eq. eapply lookup_lt_Some; eauto. }
  destruct m as [|m].
  - exists (Sleep (wrap64 (backoff * i)) w1).
    eapply failed_cons; [exact Hc | constructor].
  - destruct (IH (i + 1) (Sleep (wrap64 (backoff * i)) w1) (res, Some err)
                (wrapU64 (v + 1)) Hcell Hmapn ltac:(congruence)) as (w' & Hr).
    exists w'. eapply failed_cons; [exact Hc | exact Hr].
Qed.

(** X14: the client [decoratorMain] assembles, called once against a
    base that fails, on a request with a header map.  The retry loop is
    outermost, so each of the 6 attempts runs every other layer again:
    the base is sent to web02, web03, web01, web02, web03, web01; the
    request gains 6 Authorization values; the counter gains 6; 6 records
    are written, each before the director runs and so with the URL of the
    request, as [String] renders it, at the host of the attempt before it;
    and the sleeps are 0, 1, 2, 3, 4 and 5 seconds, the last one after the
    final attempt. *)
Theorem decoratorMain_against_failing_base res err w0 fuel :
  (6 < fuel)%nat ->
  HdrRef (w_req w0) <> None ->
  exists w',
    fst (decoratorMain UserAgent_fm (HostProbe (res, Some err)) w0) fuel
      (snd (decoratorMain UserAgent_fm (HostProbe (res, Some err)) w0)) =
      Some (Ret (res, Some err), w') /\
    marks w' =
      marks w0 ++ ["web02"; "web03"; "web01"; "web02"; "web03"; "web01"]%string /\
    records (mkLogger "client: ") w' =
      records (mkLogger "client: ") w0
        ++ map (fun h => log_record UserAgent_fm (set_host h (w_req w0)))
             [Host (Url (w_req w0)); "web02"; "web03"; "web01"; "web02";
              "web03"]%string /\
    sleeps w' =
      sleeps w0 ++ [0; 1000000000; 2000000000; 3000000000; 4000000000;
                    5000000000] /\
    counter_value (mkCounter "client.requests") w' =
      counter_value (mkCounter "client.requests") w0 + 6 /\
    default [] (Hdr (w_req w') !! "Authorization"%string) =
      default [] (Hdr (w_req w0) !! "Authorization"%string)
        ++ replicate 6 "authorizationtokengoeshere"%string.
Proof.
  intros Hfuel Hmap.
  set (bs := ["web01"; "web02"; "web03"]%string).
  set (loc := length (w_cells w0)).
  set (w1 := set_cells (w_cells w0 ++ [0]) w0).
  assert (Hne : bs <> []) by discriminate.
  assert (Hv : w_cells w1 !! loc = Some 0).
  { subst w1 loc. cbn [set_cells w_cells].
    rewrite lookup_app_r by lia. now rewrite Nat.sub_diag. }
  destruct (pipeline_run loc bs "authorizationtokengoeshere"
              (mkLogger "client: ") (mkCounter "client.requests")
              (mkHistogram "client.latency") res err 1000000000 fuel Hne
              6%nat 0 w1 (None, None) 0 Hv Hmap ltac:(congruence))
    as (w' & Hrun).
  exists w'. split.
  - change (fst (decoratorMain UserAgent_fm (HostProbe (res, Some err)) w0))
      with (FaultTolerance (Rng := Rng) 5 1000000000
              (Decorate (HostProbe (res, Some err))
                 [Authorization "authorizationtokengoeshere";
                  LoadBalancing (RoundRobin_director loc bs);
                  Logging UserAgent_fm (mkLogger "client: ");
                  Instrumentation (mkCounter "client.requests")
                    (mkHistogram "client.latency")])).
    change (snd (decoratorMain UserAgent_fm (HostProbe (res, Some err)) w0))
      with w1.
    apply FaultTolerance_of_run; [exact Hrun | unfold max_int; lia | cbn; lia].
  - destruct (failed_run_pipeline loc bs _ _ _ _ res err _ fuel Hne
                _ _ _ _ _ _ 0 Hrun Hv Hmap) as (I1 & I2 & I3 & I4 & I5).
    rewrite (hosts_selected_RoundRobin loc bs 6 Hne w1 0 Hv) in I1, I2
      by lia.
    repeat split.
    + exact I1.
    + exact I2.
    + exact I3.
    + exact I4.
    + exact I5.
Qed.

(** ** The recording base as a failing client *)

Lemma Recorder_always_fails tag res e :
  always_fails (Recorder (Rng := Rng) tag (res, Some e)).
Proof. intros fuel w. eexists _, _, _. reflexivity. Qed.

Lemma Recorder_keeps tag result fuel w o w1 :
  Recorder tag result fuel w = Some (o, w1) ->
  w_clock w <= w_clock w1 /\
  HdrRef (w_req w1) = HdrRef (w_req w) /\
  (forall requests,
      counter_value requests w1 = counter_value requests w) /\
  (forall latency, observations latency w1 = observations latency w).
Proof.
  unfold Recorder. intros H. inversion H; subst. clear H.
  split; [cbn; lia|]. split; [reflexivity|]. split.
  - intros requests. rewrite counter_value_emit. cbn. lia.
  - intros latency. rewrite observations_emit. cbn. now rewrite app_nil_r.
Qed.

(** ** A bound on the attempts *)

Lemma calls_marked tag w w1 :
  w_trace w1 = w_trace w ++ [EvMark tag] ->
  calls tag w1 = calls tag w + 1.
Proof.
  intros H. rewrite <- (calls_emit_mark tag w).
  unfold calls, emit. cbn [w_trace]. now rewrite H.
Qed.

Lemma FaultTolerance_loop_at_most attempts backoff c tag fuel n :
  marks_invocation c tag ->
  attempts < max_int ->
  forall i cur w o w',
    FaultTolerance_loop attempts backoff c fuel i cur w n = Some (o, w') ->
    min_int <= i <= max_int ->
    calls tag w <= calls tag w' <=
    calls tag w + Z.max 0 (attempts + 1 - i).
Proof.
  intros Hmark Ha. induction n as [|n IH]; intros i cur w o w' H Hi;
    [discriminate|].
  cbn [FaultTolerance_loop] in H.
  destruct (Z.leb_spec i attempts) as [Hle|Hgt].
  - unfold Do in H.
    destruct (c fuel w) as [[x w1]|] eqn:Hc; [|discriminate].
    pose proof (calls_marked tag w w1 (Hmark _ _ _ _ Hc)) as Hcalls.
    destruct x as [[res [e|]]|].
    + rewrite wrap64_id in H by (unfold min_int, max_int in *; lia).
      apply IH in H; [|unfold min_int, max_int in *; lia].
      rewrite calls_Sleep in H. lia.
    + inversion H; subst. lia.
    + inversion H; subst. lia.
  - inversion H; subst. lia.
Qed.

(** X15: whatever the wrapped client does (succeed, fail or panic, in
    any pattern), one call through [FaultTolerance attempts backoff] that
    returns has invoked it at most [attempts + 1] times, and not at all
    for a negative [attempts]. *)
Theorem FaultTolerance_at_most attempts backoff c tag fuel w o w' :
  marks_invocation c tag ->
  attempts < max_int ->
  FaultTolerance attempts backoff c fuel w = Some (o, w') ->
  calls tag w <= calls tag w' <= calls tag w + Z.max 0 (attempts + 1).
Proof.
  intros Hmark Ha H. unfold FaultTolerance, ClientFunc in H.
  pose proof (FaultTolerance_loop_at_most attempts backoff c tag fuel fuel
                Hmark Ha 0 (None, None) w o w' H
                ltac:(unfold min_int, max_int; lia)) as Hb.
  now rewrite Z.sub_0_r in Hb.
Qed.

End Properties.


(** ** The log record *)

(** C6 at a request with [User-Agent: curl/8.0]: [Logging] emits one
    record before it delegates, but the first operand of [Printf] is the
    method value [r.UserAgent], not its result, so the record holds the
    rendering of a func value where the user agent was meant to be.  The
    record does not contain the user agent, and it is the same for every
    header map of the request, nil or not. *)
Theorem Logging_record_lacks_user_agent :
  UserAgent example_request = "curl/8.0"%string /\
  observed (Logging 4873056 client_logger
              (Recorder "base" (Some ok_response, None)) 1%nat example_world) =
    Some (Ret (Some ok_response, None),
          [EvLog client_logger
             "%!s(func() string=0x4a5b60): GET http://example.com/";
           EvMark "base"]) /\
  String.index 0 "curl/8.0"
    "%!s(func() string=0x4a5b60): GET http://example.com/" = None /\
  (forall h : option http_Header,
      observed (Logging 4873056 client_logger
                  (Recorder "base" (Some ok_response, None)) 1%nat
                  (set_req (fun r => mkRequest (Method r) (Url r) h)
                     example_world)) =
      Some (Ret (Some ok_response, None),
            [EvLog client_logger
               "%!s(func() string=0x4a5b60): GET http://example.com/";
             EvMark "base"])).
Proof.
  split; [vm_compute; reflexivity|].
  split; [vm_compute; reflexivity|].
  split; [vm_compute; reflexivity|].
  intros h. reflexivity.
Qed.

(** ** Counterexamples *)

(** C2 fails for a negative [attempts]: with [attempts = -2] and a client
    that would succeed at once ([k = 0]) no failure is returned and the
    number of invocations is not [attempts + 1].  It fails at
    [attempts = max_int] too: the counter wraps, and a client that fails
    [max_int + 1] times is invoked again and its success returned. *)
Lemma FaultTolerance_invocations_counterexample :
  ~ (exists res e w',
        FaultTolerance (-2) 100 (Flaky "base" 0 ok_response) 10%nat
          example_world = Some (Ret (res, Some e), w') /\
        calls "base" w' = calls "base" example_world + (-2 + 1)) /\
  ~ (exists res e w',
        FaultTolerance max_int 100 (Flaky "base" (0 + (max_int + 1)) ok_response)
          (Z.to_nat (max_int + 1) + 2)%nat example_world =
          Some (Ret (res, Some e), w') /\
        calls "base" w' = calls "base" example_world + (max_int + 1)).
Proof.
  split.
  - intros (res & e & w' & H & _). vm_compute in H. discriminate H.
  - intros (res & e & w' & H & _).
    pose proof (Flaky_fails_then_succeeds (Rng := Z) "base" (max_int + 1)
                  ok_response 0) as Hflaky.
    pose proof (Nat.lt_add_pos_r 2 (Z.to_nat (max_int + 1)) Nat.lt_0_2)
      as Hfuel.
    destruct (FaultTolerance_wraps 100 _ (calls "base") 0 _ example_world
                Hflaky eq_refl Hfuel) as (res' & w2 & Hloop & _).
    rewrite Hloop in H. clear Hloop. discriminate H.
Qed.

(** C3 fails at [attempts = 1], [backoff = 100] and a client that keeps
    failing: the sleep before the first retry is 0, not [backoff * 1], and
    a sleep of [backoff * 1] follows the last attempt. *)
Lemma FaultTolerance_backoff_counterexample :
  observed (FaultTolerance 1 100 (Flaky "base" 5 ok_response) 10%nat
              example_world) =
  Some (Ret (None, Some "failure"%string),
        [EvMark "base"; EvSleep 0; EvMark "base"; EvSleep 100]).
Proof. vm_compute. reflexivity. Qed.

(** C8 fails when the cell wraps within the 9 invocations: from
    [robin = 2 ^ 64 - 2] the new values are [2 ^ 64 - 1] and then [0],
    both 0 modulo 3, so the first backend is selected twice in a row and
    4 times in all, the third only twice. *)
Lemma RoundRobin_three_backends_counterexample :
  let run := RoundRobin (2 ^ 64 - 2) web_backends example_world in
  let hosts := hosts_selected (fst run) 9 (snd run) in
  hosts = ["web01"; "web01"; "web02"; "web03"; "web01"; "web02"; "web03";
           "web01"; "web02"]%string /\
  count_occ string_dec hosts "web01"%string = 4%nat /\
  count_occ string_dec hosts "web03"%string = 2%nat.
Proof. vm_compute. repeat split. Qed.

(** ** The theorems at concrete inputs *)

(** Two recording transforms around the base that always fails. *)
Lemma Decorate_order_witness :
  failing_base 1%nat
    (emit (EvMark "T1.pre") (emit (EvMark "T2.pre") example_world)) =
    Some (Ret (None, Some "boom"%string),
          emit (EvMark "base")
            (emit (EvMark "T1.pre") (emit (EvMark "T2.pre") example_world))) /\
  observed (Decorate failing_base
              [Around "T1.pre" "T1.post"; Around "T2.pre" "T2.post"]
              1%nat example_world) =
    Some (Ret (None, Some "boom"%string),
          [EvMark "T2.pre"; EvMark "T1.pre"; EvMark "base";
           EvMark "T1.post"; EvMark "T2.post"]).
Proof.
  split; [reflexivity|].
  pose proof (Decorate_order (Rng := Z)) as (_ & _ & _ & _ & Hgen & _).
  rewrite (Hgen failing_base "T1.pre" "T1.post" "T2.pre" "T2.post" 1%nat
             example_world _ _ eq_refl).
  reflexivity.
Defined.

(** [Instrumentation] around a base that always fails. *)
Lemma Instrumentation_records_once_witness :
  failing_base 1%nat example_world =
    Some (Ret (None, Some "boom"%string), emit (EvMark "base") example_world) /\
  exists w',
    Instrumentation client_requests client_latency failing_base 1%nat
      example_world = Some (Ret (None, Some "boom"%string), w') /\
    w_trace w' =
    w_trace (emit (EvMark "base") example_world)
      ++ [EvObserve client_latency
            (Since (w_clock example_world)
               (emit (EvMark "base") example_world));
          EvAdd client_requests 1].
Proof.
  split; [reflexivity|].
  apply (Instrumentation_records_once client_requests client_latency
           failing_base 1%nat example_world).
  reflexivity.
Defined.

(** [FaultTolerance] with [attempts = -1]. *)
Lemma FaultTolerance_negative_attempts_witness :
  -1 < 0 /\
  FaultTolerance (-1) 1000 failing_base 1%nat example_world =
    Some (Ret (None, None), example_world).
Proof.
  split; [lia|].
  apply (FaultTolerance_negative_attempts (-1) 1000 failing_base 0
           example_world).
  lia.
Defined.

(** Two failures, then a success: with 3 attempts the third invocation
    succeeds, with 1 attempt the second failure is returned. *)
Lemma FaultTolerance_invocations_witness :
  (fails_then_succeeds flaky2 (calls "base") 0 2 /\
   calls "base" example_world = 0 /\ 0 <= 2 /\ 0 <= 3 <= max_int /\
   2 <= 3 /\ (Z.to_nat 2 < 10)%nat /\
   exists res w' wl,
     FaultTolerance 3 1000 flaky2 10%nat example_world =
       Some (Ret (res, None), w') /\
     calls "base" w' = 0 + 2 + 1 /\
     calls "base" wl = 0 + 2 /\
     flaky2 10%nat wl = Some (Ret (res, None), w')) /\
  (0 <= 1 <= max_int /\ 1 < 2 /\ 1 < max_int /\ (Z.to_nat 1 + 1 < 10)%nat /\
   exists res e w' wl wl',
     FaultTolerance 1 1000 flaky2 10%nat example_world =
       Some (Ret (res, Some e), w') /\
     calls "base" w' = 0 + 1 + 1 /\
     calls "base" wl = 0 + 1 /\
     flaky2 10%nat wl = Some (Ret (res, Some e), wl')).
Proof.
  pose proof (Flaky_fails_then_succeeds (Rng := Z) "base" 2 ok_response 0)
    as Hflaky.
  split.
  - split; [exact Hflaky|]. split; [reflexivity|]. split; [lia|].
    split; [unfold max_int; lia|]. split; [lia|]. split; [cbn; lia|].
    apply (proj1 (FaultTolerance_invocations 3 1000 flaky2 (calls "base")
                    0 2 10%nat example_world Hflaky eq_refl
                    ltac:(lia) ltac:(unfold max_int; lia)));
      [lia | cbn; lia].
  - split; [unfold max_int; lia|]. split; [lia|].
    split; [unfold max_int; lia|]. split; [cbn; lia|].
    apply (proj2 (FaultTolerance_invocations 1 1000 flaky2 (calls "base")
                    0 2 10%nat example_world Hflaky eq_refl
                    ltac:(lia) ltac:(unfold max_int; lia)));
      [lia | unfold max_int; lia | cbn; lia].
Defined.

(** A client that fails twice and a backoff of 100.  With 3 attempts
    the trace is invocation, sleep 0, invocation, sleep 100, invocation;
    with 1 attempt it is invocation, sleep 0, invocation, sleep 100: the
    sleep of [backoff * 1] follows the last attempt. *)
Lemma FaultTolerance_backoff_witness :
  marks_invocation flaky2 "base" /\
  (1 < max_int /\
   FaultTolerance 1 100 flaky2 10%nat example_world =
     Some (Ret (None, Some "failure"%string), exhausted_world) /\
   exists m : nat,
     (w_trace exhausted_world =
        w_trace example_world ++ schedule "base" 100 0 m ++ [EvMark "base"] /\
      Z.of_nat m <= 1 /\
      forall res e, Ret (@None Response, Some "failure"%string) <> Ret (res, Some e))
     \/
     (w_trace exhausted_world =
        w_trace example_world ++ schedule "base" 100 0 m /\
      Z.of_nat m = Z.max 0 (1 + 1) /\
      ((m = 0%nat /\
        Ret (@None Response, Some "failure"%string) = Ret (None, None))
       \/
       (m <> 0%nat /\
        exists res e,
          Ret (@None Response, Some "failure"%string) = Ret (res, Some e))))) /\
  fails_then_succeeds flaky2 (calls "base") 0 2 /\
  calls "base" example_world = 0 /\ 0 <= 2 /\
  (0 <= 3 <= max_int /\ (2 <= 3 \/ 3 < max_int) /\
   (Z.to_nat (Z.min 2 3) + 1 < 10)%nat /\
   exists o w',
     FaultTolerance 3 100 flaky2 10%nat example_world = Some (o, w') /\
     w_trace w' =
       [EvMark "base"; EvSleep 0; EvMark "base"; EvSleep 100;
        EvMark "base"]) /\
  (0 <= 1 <= max_int /\ (2 <= 1 \/ 1 < max_int) /\
   (Z.to_nat (Z.min 2 1) + 1 < 10)%nat /\
   exists o w',
     FaultTolerance 1 100 flaky2 10%nat example_world = Some (o, w') /\
     w_trace w' =
       [EvMark "base"; EvSleep 0; EvMark "base"; EvSleep 100]).
Proof.
  pose proof (Flaky_fails_then_succeeds (Rng := Z) "base" 2 ok_response 0)
    as Hflaky.
  pose proof (Flaky_marks_invocation (Rng := Z) "base" (0 + 2) ok_response)
    as Hmarks.
  assert (Hrun : FaultTolerance 1 100 flaky2 10%nat example_world =
                 Some (Ret (None, Some "failure"%string), exhausted_world))
    by (vm_compute; reflexivity).
  split; [exact Hmarks|]. split; [|split; [exact Hflaky|]].
  - split; [unfold max_int; lia|]. split; [exact Hrun|].
    exact (proj1 (FaultTolerance_backoff 1 100 flaky2 "base" 10%nat
                    example_world Hmarks)
             ltac:(unfold max_int; lia) _ _ Hrun).
  - split; [reflexivity|]. split; [lia|]. split.
    + split; [unfold max_int; lia|]. split; [left; lia|].
      split; [cbn; lia|].
      exact (proj2 (FaultTolerance_backoff 3 100 flaky2 "base" 10%nat
                      example_world Hmarks)
               0 2 Hflaky eq_refl ltac:(lia) ltac:(unfold max_int; lia)
               ltac:(left; lia) ltac:(cbn; lia)).
    + split; [unfold max_int; lia|]. split; [right; unfold max_int; lia|].
      split; [cbn; lia|].
      exact (proj2 (FaultTolerance_backoff 1 100 flaky2 "base" 10%nat
                      example_world Hmarks)
               0 2 Hflaky eq_refl ltac:(lia) ltac:(unfold max_int; lia)
               ltac:(right; unfold max_int; lia) ltac:(cbn; lia)).
Defined.

(** The director of [decoratorMain]: counter 0 over three backends. *)
Lemma RoundRobin_three_backends_witness :
  0 <= 0 /\ 0 + 9 < 2 ^ 64 /\
  let run := RoundRobin 0 web_backends example_world in
  hosts_selected (fst run) 9 (snd run) =
    ["web02"; "web03"; "web01"; "web02"; "web03"; "web01";
     "web02"; "web03"; "web01"]%string /\
  forall p, 0 <= p < 3 ->
    count_occ Z.eq_dec (map (fun j => (0 + Z.of_nat j) mod 3) (seq 1 9)) p
    = 3%nat.
Proof.
  split; [lia|]. split; [lia|].
  destruct (RoundRobin_three_backends 0 "web01" "web02" "web03" example_world
              ltac:(lia) ltac:(lia)) as (_ & _ & Hhosts & Hcount & _).
  split; [exact Hhosts | exact Hcount].
Defined.

(** The failure of the base comes out of the whole pipeline of
    [decoratorMain]. *)
Lemma pass_through_unchanged_witness :
  (main_director main_world = (Ret tt, snd (main_director main_world)) /\
   LoadBalancing main_director failing_base 1%nat main_world =
     failing_base 1%nat (snd (main_director main_world))) /\
  (Forall (hands_on 4873056) main_pipeline /\
   main_run =
     Some (Ret (None, Some "boom"%string),
           match main_run with Some (_, w) => w | None => main_world end) /\
   exists w1 w1',
     failing_base 10%nat w1 = Some (Ret (None, Some "boom"%string), w1')).
Proof.
  pose proof (pass_through_unchanged (Rng := Z) 4873056)
    as (_ & _ & _ & Hlb & _ & Hpipe).
  split.
  - split; [reflexivity|]. apply Hlb. reflexivity.
  - assert (Hds : Forall (hands_on 4873056) main_pipeline).
    { unfold main_pipeline, Authorization.
      repeat (apply Forall_cons; split;
              [first [ apply ho_pass; constructor
                     | apply ho_FaultTolerance; lia ]|]).
      constructor. }
    split; [exact Hds|]. split; [vm_compute; reflexivity|].
    apply (Hpipe main_pipeline failing_base 10%nat main_world
             (None, Some "boom"%string)
             (match main_run with Some (_, w) => w | None => main_world end)
             Hds).
    vm_compute. reflexivity.
Defined.

(** Adding a second [User-Agent] value to the example request keeps the
    first. *)
Lemma Header_appends_witness :
  HdrRef (w_req example_world) =
    Some {[ "User-Agent"%string := ["curl/8.0"%string] ]} /\
  exists w1,
    (forall c fuel,
        Header "user-agent" "probe" c fuel example_world = c fuel w1) /\
    Hdr (w_req w1) !! "User-Agent"%string =
      Some ["curl/8.0"%string; "probe"%string] /\
    HdrRef (w_req w1) <> None.
Proof.
  split; [reflexivity|].
  pose proof (Header_appends (Rng := Z)) as (Hone & _).
  destruct (Hone "user-agent"%string "probe"%string example_world
              {[ "User-Agent"%string := ["curl/8.0"%string] ]} eq_refl)
    as (w1 & Hc & Hk & _ & Hmap & _).
  exists w1. split; [exact Hc|]. split; [|exact Hmap].
  rewrite Hk. vm_compute. reflexivity.
Defined.

(** C9 fails on a request whose header map is nil: the base alone returns
    a response, but under [Header] or [Authorization] the call
    [r.Header.Add] panics, so nothing is appended and the base is not
    reached: the world is left as it was, without the mark of the base. *)
Lemma Header_appends_counterexample :
  HdrRef (w_req nil_header_world) = None /\
  ok_base 1%nat nil_header_world =
    Some (Ret (Some ok_response, None),
          emit (EvMark "base") nil_header_world) /\
  Header "X-Probe" "1" ok_base 1%nat nil_header_world =
    Some (Panic, nil_header_world) /\
  Authorization "token" ok_base 1%nat nil_header_world =
    Some (Panic, nil_header_world) /\
  w_trace nil_header_world = [].
Proof. repeat split. Qed.

(** ** The further properties at concrete inputs *)

Lemma lcg_intn_in_range : Intn_in_range lcg_intn.
Proof.
  intros g n Hn. unfold lcg_intn. cbn [fst]. now apply Z.mod_pos_bound.
Qed.

Lemma failing_base_always_fails : always_fails failing_base.
Proof. apply Recorder_always_fails. Qed.

Lemma failing_base_keeps fuel w o w1 :
  failing_base fuel w = Some (o, w1) ->
  w_clock w <= w_clock w1 /\
  HdrRef (w_req w1) = HdrRef (w_req w) /\
  (forall requests,
      counter_value requests w1 = counter_value requests w) /\
  (forall latency, observations latency w1 = observations latency w).
Proof. apply Recorder_keeps. Qed.

(** The retry layer over a base that succeeds at once. *)
Lemma FaultTolerance_first_attempt_witness :
  0 <= 3 /\
  ok_base 1%nat example_world =
    Some (Ret (Some ok_response, None), emit (EvMark "base") example_world) /\
  (forall (res : option Response) (e : Error),
      Ret (Some ok_response, @None Error) <> Ret (res, Some e)) /\
  FaultTolerance 3 1000 ok_base 1%nat example_world =
    Some (Ret (Some ok_response, None), emit (EvMark "base") example_world).
Proof.
  assert (Hne : forall (res : option Response) (e : Error),
             Ret (Some ok_response, @None Error) <> Ret (res, Some e))
    by (intros res e; discriminate).
  split; [lia|]. split; [reflexivity|]. split; [exact Hne|].
  apply (FaultTolerance_first_attempt 3 1000 ok_base 0%nat example_world
           (Ret (Some ok_response, None))
           (emit (EvMark "base") example_world));
    [lia | reflexivity | exact Hne].
Defined.

(** Two retries with a backoff of 1000 against the failing base: the
    clock moves by 0 + 1000 + 2000 at least. *)
Lemma FaultTolerance_backoff_total_witness :
  always_fails failing_base /\
  0 <= 2 < max_int /\ 0 <= 1000 /\ 1000 * 2 <= max_int /\
  (Z.to_nat 2 + 1 < 10)%nat /\
  exists res e w',
    FaultTolerance 2 1000 failing_base 10%nat example_world =
      Some (Ret (res, Some e), w') /\
    1000 * 2 * (2 + 1) <= 2 * (w_clock w' - w_clock example_world).
Proof.
  pose proof failing_base_always_fails as Hfail.
  split; [exact Hfail|]. split; [unfold max_int; lia|]. split; [lia|].
  split; [unfold max_int; lia|]. split; [cbn; lia|].
  apply (FaultTolerance_backoff_total 2 1000 failing_base 10%nat
           example_world Hfail);
    [ intros fuel' w0 o w1 H; exact (proj1 (failing_base_keeps _ _ _ _ H))
    | unfold max_int; lia | lia | unfold max_int; lia | cbn; lia ].
Defined.

(** A tracing header under two retries, on the example request and on
    the request without a header map. *)
Lemma Header_accumulates_over_retries_witness :
  always_fails failing_base /\
  0 <= 2 < max_int /\ (Z.to_nat 2 + 1 < 10)%nat /\
  HdrRef (w_req example_world) <> None /\
  HdrRef (w_req nil_header_world) = None /\
  (exists res e w',
     Decorate failing_base [Header "x-trace" "t"; FaultTolerance 2 1000]
       10%nat example_world = Some (Ret (res, Some e), w') /\
     default [] (Hdr (w_req w') !! CanonicalMIMEHeaderKey "x-trace") =
       default [] (Hdr (w_req example_world)
                     !! CanonicalMIMEHeaderKey "x-trace")
         ++ replicate (S (Z.to_nat 2)) "t"%string /\
     forall k, k <> CanonicalMIMEHeaderKey "x-trace" ->
       Hdr (w_req w') !! k = Hdr (w_req example_world) !! k) /\
  Decorate failing_base [Header "x-trace" "t"; FaultTolerance 2 1000]
    10%nat nil_header_world = Some (Panic, nil_header_world).
Proof.
  pose proof failing_base_always_fails as Hfail.
  assert (Hkeep : forall fuel' w0 o w1,
             failing_base fuel' w0 = Some (o, w1) ->
             HdrRef (w_req w1) = HdrRef (w_req w0)).
  { intros fuel' w0 o w1 H.
    exact (proj1 (proj2 (failing_base_keeps _ _ _ _ H))). }
  assert (Hmap : HdrRef (w_req example_world) <> None) by discriminate.
  split; [exact Hfail|]. split; [unfold max_int; lia|]. split; [cbn; lia|].
  split; [exact Hmap|]. split; [reflexivity|]. split.
  - apply (proj1 (Header_accumulates_over_retries "x-trace" "t" 2 1000
                    failing_base 10%nat example_world Hfail Hkeep
                    ltac:(unfold max_int; lia) ltac:(cbn; lia))).
    exact Hmap.
  - apply (proj2 (Header_accumulates_over_retries "x-trace" "t" 2 1000
                    failing_base 10%nat nil_header_world Hfail Hkeep
                    ltac:(unfold max_int; lia) ltac:(cbn; lia))).
    reflexivity.
Defined.

(** The metrics of [decoratorMain] under two retries. *)
Lemma Instrumentation_once_per_attempt_witness :
  always_fails failing_base /\
  0 <= 2 < max_int /\ (Z.to_nat 2 + 1 < 10)%nat /\
  exists res e w',
    Decorate failing_base
      [Instrumentation client_requests client_latency;
       FaultTolerance 2 1000] 10%nat example_world =
      Some (Ret (res, Some e), w') /\
    counter_value client_requests w' =
      counter_value client_requests example_world + (2 + 1) /\
    length (observations client_latency w') =
      (length (observations client_latency example_world)
       + S (Z.to_nat 2))%nat.
Proof.
  pose proof failing_base_always_fails as Hfail.
  split; [exact Hfail|]. split; [unfold max_int; lia|]. split; [cbn; lia|].
  apply (Instrumentation_once_per_attempt client_requests client_latency
           2 1000 failing_base 10%nat example_world Hfail);
    [ intros fuel' w0 o w1 H;
      destruct (failing_base_keeps _ _ _ _ H) as (_ & _ & Hc & Ho);
      split; [apply Hc | apply Ho]
    | unfold max_int; lia | cbn; lia ].
Defined.

(** The metrics over the retry loop: one observation, of 3000 at least. *)
Lemma Instrumentation_covers_backoff_witness :
  always_fails failing_base /\
  0 <= 2 < max_int /\ 0 <= 1000 /\ 1000 * 2 <= max_int /\
  1000 * 2 * (2 + 1) <= 2 * max_int /\ (Z.to_nat 2 + 1 < 10)%nat /\
  exists res e w1 v,
    FaultTolerance 2 1000 failing_base 10%nat example_world =
      Some (Ret (res, Some e), w1) /\
    Decorate failing_base
      [FaultTolerance 2 1000;
       Instrumentation client_requests client_latency] 10%nat example_world =
      Some (Ret (res, Some e),
            Add client_requests 1 (Observe client_latency v w1)) /\
    1000 * 2 * (2 + 1) <= 2 * v.
Proof.
  pose proof failing_base_always_fails as Hfail.
  split; [exact Hfail|]. split; [unfold max_int; lia|]. split; [lia|].
  split; [unfold max_int; lia|]. split; [unfold max_int; lia|].
  split; [cbn; lia|].
  apply (Instrumentation_covers_backoff client_requests client_latency
           2 1000 failing_base 10%nat example_world Hfail);
    [ intros fuel' w0 o w1 H; exact (proj1 (failing_base_keeps _ _ _ _ H))
    | unfold max_int; lia | lia | unfold max_int; lia | unfold max_int; lia
    | cbn; lia ].
Defined.

(** The director of [decoratorMain] under two retries: web02, web03,
    web01. *)
Lemma LoadBalancing_rotates_over_retries_witness :
  web_backends <> [] /\
  w_cells main_world !! 0%nat = Some 0 /\
  0 <= 2 < max_int /\ (Z.to_nat 2 + 1 < 10)%nat /\
  exists w',
    Decorate (HostProbe (None, Some "down"%string))
      [LoadBalancing (RoundRobin_director 0 web_backends);
       FaultTolerance 2 1000] 10%nat main_world =
      Some (Ret (None, Some "down"%string), w') /\
    marks w' =
    marks main_world
      ++ hosts_selected (RoundRobin_director 0 web_backends)
           (S (Z.to_nat 2)) main_world.
Proof.
  assert (Hne : web_backends <> []) by discriminate.
  split; [exact Hne|]. split; [reflexivity|].
  split; [unfold max_int; lia|]. split; [cbn; lia|].
  apply (LoadBalancing_rotates_over_retries 0 web_backends None
           "down"%string 2 1000 10%nat main_world 0 Hne eq_refl);
    [unfold max_int; lia | cbn; lia].
Defined.

Lemma RoundRobin_director_selects_witness :
  web_backends <> [] /\
  w_cells main_world !! 0%nat = Some 0 /\
  exists b w1,
    RoundRobin_director 0 web_backends main_world = (Ret tt, w1) /\
    b ∈ web_backends /\
    w_req w1 = set_host b (w_req main_world) /\
    w_cells w1 = <[0%nat := wrapU64 (0 + 1)]> (w_cells main_world) /\
    w_trace w1 = w_trace main_world /\ w_clock w1 = w_clock main_world /\
    w_rngs w1 = w_rngs main_world.
Proof.
  assert (Hne : web_backends <> []) by discriminate.
  split; [exact Hne|]. split; [reflexivity|].
  exact (RoundRobin_director_selects 0 web_backends main_world 0 Hne eq_refl).
Defined.

Lemma RoundRobin_full_cycle_witness :
  web_backends <> [] /\
  w_cells main_world !! 0%nat = Some 0 /\
  0 <= 0 /\ 0 + len web_backends < 2 ^ 64 /\
  Permutation
    (hosts_selected (RoundRobin_director 0 web_backends)
       (length web_backends) main_world)
    web_backends.
Proof.
  assert (Hne : web_backends <> []) by discriminate.
  assert (Hlen : 0 + len web_backends < 2 ^ 64) by (vm_compute; reflexivity).
  split; [exact Hne|]. split; [reflexivity|]. split; [lia|].
  split; [exact Hlen|].
  exact (RoundRobin_full_cycle 0 web_backends main_world 0 Hne eq_refl
           ltac:(lia) Hlen).
Defined.

(** Two directors over the backends of [decoratorMain]: two invocations
    of one leave the next three picks of the other as they were. *)
Lemma RoundRobin_directors_independent_witness :
  web_backends <> [] /\
  let d1 := fst (RoundRobin 0 web_backends example_world) in
  let w1 := snd (RoundRobin 0 web_backends example_world) in
  let d2 := fst (RoundRobin 7 web_backends w1) in
  let w2 := snd (RoundRobin 7 web_backends w1) in
  hosts_selected d2 3 (invoke_n d1 2 w2) = hosts_selected d2 3 w2 /\
  hosts_selected d1 3 (invoke_n d2 2 w2) = hosts_selected d1 3 w2.
Proof.
  assert (Hne : web_backends <> []) by discriminate.
  split; [exact Hne|].
  pose proof (RoundRobin_directors_independent 0 web_backends 7 web_backends
                example_world 2 3) as [H1 H2].
  split; [exact (H1 Hne) | exact (H2 Hne)].
Defined.

Lemma Random_director_selects_witness :
  Intn_in_range lcg_intn /\
  web_backends <> [] /\
  w_rngs (snd (Random lcg_source lcg_intn 42 web_backends example_world))
    !! 0%nat = Some 42 /\
  exists b w1,
    Random_director lcg_intn 0 web_backends
      (snd (Random lcg_source lcg_intn 42 web_backends example_world)) =
      (Ret tt, w1) /\
    b ∈ web_backends /\
    w_req w1 = set_host b (w_req example_world) /\
    w_rngs w1 = <[0%nat := snd (lcg_intn 42 (len web_backends))]> [42] /\
    w_trace w1 = [] /\ w_clock w1 = 0 /\ w_cells w1 = [].
Proof.
  assert (Hne : web_backends <> []) by discriminate.
  split; [exact lcg_intn_in_range|]. split; [exact Hne|].
  split; [reflexivity|].
  exact (Random_director_selects lcg_intn 0 web_backends
           (snd (Random lcg_source lcg_intn 42 web_backends example_world))
           42 lcg_intn_in_range Hne eq_refl).
Defined.

Lemma Random_same_seed_witness :
  Intn_in_range lcg_intn /\
  web_backends <> [] /\
  hosts_selected
    (fst (Random lcg_source lcg_intn 42 web_backends example_world)) 4
    (snd (Random lcg_source lcg_intn 42 web_backends example_world)) =
  hosts_selected
    (fst (Random lcg_source lcg_intn 42 web_backends main_world)) 4
    (snd (Random lcg_source lcg_intn 42 web_backends main_world)).
Proof.
  assert (Hne : web_backends <> []) by discriminate.
  split; [exact lcg_intn_in_range|]. split; [exact Hne|].
  exact (Random_same_seed lcg_source lcg_intn 42 web_backends example_world
           main_world 4 lcg_intn_in_range Hne).
Defined.

(** [decoratorMain] over the example world, with enough fuel for its 6
    attempts. *)
Lemma decoratorMain_against_failing_base_witness :
  (6 < 10)%nat /\
  HdrRef (w_req example_world) <> None /\
  exists w',
    fst (decoratorMain 4873056 (HostProbe (None, Some "down"%string))
           example_world) 10%nat
      (snd (decoratorMain 4873056 (HostProbe (None, Some "down"%string))
              example_world)) =
      Some (Ret (None, Some "down"%string), w') /\
    marks w' =
      ["web02"; "web03"; "web01"; "web02"; "web03"; "web01"]%string /\
    records (mkLogger "client: ") w' =
      ["%!s(func() string=0x4a5b60): GET http://example.com/";
       "%!s(func() string=0x4a5b60): GET http://web02/";
       "%!s(func() string=0x4a5b60): GET http://web03/";
       "%!s(func() string=0x4a5b60): GET http://web01/";
       "%!s(func() string=0x4a5b60): GET http://web02/";
       "%!s(func() string=0x4a5b60): GET http://web03/"]%string /\
    sleeps w' =
      [0; 1000000000; 2000000000; 3000000000; 4000000000; 5000000000] /\
    counter_value (mkCounter "client.requests") w' = 6.
Proof.
  assert (Hmap : HdrRef (w_req example_world) <> None) by discriminate.
  split; [lia|]. split; [exact Hmap|].
  destruct (decoratorMain_against_failing_base 4873056 None "down"%string
              example_world 10%nat ltac:(lia) Hmap)
    as (w' & Hrun & Hmarks & Hrecords & Hsleeps & Hcount & _).
  exists w'. split; [exact Hrun|]. split; [exact Hmarks|].
  split; [exact Hrecords|]. split; [exact Hsleeps | exact Hcount].
Defined.

(** Three attempts allowed, three invocations made. *)
Lemma FaultTolerance_at_most_witness :
  marks_invocation flaky2 "base" /\
  3 < max_int /\
  FaultTolerance 3 1000 flaky2 10%nat example_world =
    Some (Ret (Some ok_response, None),
          match FaultTolerance 3 1000 flaky2 10%nat example_world with
          | Some (_, w) => w
          | None => example_world
          end) /\
  calls "base" example_world <=
  calls "base"
    (match FaultTolerance 3 1000 flaky2 10%nat example_world with
     | Some (_, w) => w
     | None => example_world
     end) <= calls "base" example_world + Z.max 0 (3 + 1).
Proof.
  pose proof (Flaky_marks_invocation (Rng := Z) "base" (0 + 2) ok_response)
    as Hmarks.
  assert (Hrun : FaultTolerance 3 1000 flaky2 10%nat example_world =
                 Some (Ret (Some ok_response, None),
                       match FaultTolerance 3 1000 flaky2 10%nat
                               example_world with
                       | Some (_, w) => w
                       | None => example_world
                       end)) by (vm_compute; reflexivity).
  split; [exact Hmarks|]. split; [unfold max_int; lia|].
  split; [exact Hrun|].
  exact (FaultTolerance_at_most 3 1000 flaky2 "base" 10%nat example_world
           _ _ Hmarks ltac:(unfold max_int; lia) Hrun).
Defined.

(** A second [User-Agent] value on the example request does not change
    what [Get] reads; on the request without a header map [Header]
    panics. *)
Lemma Header_then_Get_witness :
  HdrRef (w_req example_world) <> None /\
  HdrRef (w_req nil_header_world) = None /\
  (exists w1,
     Header "user-agent" "probe" ok_base 1%nat example_world =
       ok_base 1%nat w1 /\
     Header_Get "user-agent" (Hdr (w_req w1)) = "curl/8.0"%string) /\
  Header "user-agent" "probe" ok_base 1%nat nil_header_world =
    Some (Panic, nil_header_world).
Proof.
  assert (Hmap : HdrRef (w_req example_world) <> None) by discriminate.
  split; [exact Hmap|]. split; [reflexivity|]. split.
  - destruct (proj1 (Header_then_Get "user-agent" "probe" ok_base 1%nat
                       example_world) Hmap) as (w1 & Hc & Hget).
    exists w1. split; [exact Hc|]. rewrite Hget. vm_compute. reflexivity.
  - exact (proj2 (Header_then_Get "user-agent" "probe" ok_base 1%nat
                    nil_header_world) eq_refl).
Defined.
